(** * Lumberjack: the [ActionQueue] of [lumberjack/actions.py]

    A shallow embedding of the class [ActionQueue] and a verification of the
    properties its specification states about it.

    Conventions of the embedding.

    - The module is Python 2 code: [map] builds a list at once (the source
      takes [len] of its result), [open] raises [IOError].
    - A method is a computation in the monad [M]: it takes the state of the
      object and of its surroundings and gives back a result, a value or a
      raised exception, with the state as the method left it.
    - A value of [exn] is an instance of a subclass of Python's [Exception];
      the clauses [except Exception] of the source catch every such value.
    - A postprocessor is a function of the body it is given: it returns a
      body or raises.
    - The statements under [self.queue_lock] are one step each, and so is a
      call from the main thread: the thread of the object runs between two
      calls, not inside one.
    - What the surroundings answer (whether the bulk write, [open] and
      [write] raise, whether the timer of [Event.wait] expires) is given to
      the embedding as an argument, so that a theorem quantifies over it.
    - Document bodies are JSON data. [json.dumps] belongs to the Python
      standard library; it is a variable of the section, a function from
      JSON data to strings. *)

From stdpp Require Import gmap strings list fin_maps pretty.
From Stdlib Require Import ZArith Lia Ascii.

#[local] Set Warnings "-register-all".

Local Open Scope string_scope.
Local Open Scope list_scope.

(** ** Data *)

(** Python values that occur as document bodies: JSON-like data. A [dict]
    is kept as the list of its items. *)
Inductive pyval : Type :=
| PNone
| PBool (b : bool)
| PInt (z : Z)
| PStr (s : string)
| PList (l : list pyval)
| PDict (items : list (string * pyval)).

(** Instances of [Exception], by class. [TransportError] stands for the
    class of that name and its subclasses, [IOError] likewise;
    [OtherError] is any instance of [Exception] of another class. *)
Inductive exn : Type :=
| TransportError (info : string)
| IOError (info : string)
| TypeError (info : string)
| KeyError (key : string)
| IndexError (info : string)
| OtherError (info : string).

Definition is_TransportError (e : exn) : bool :=
  match e with TransportError _ => true | _ => false end.

Definition is_IOError (e : exn) : bool :=
  match e with IOError _ => true | _ => false end.

(** [except Exception]: every value of [exn] is an instance of it. *)
Definition is_Exception (e : exn) : bool := true.

(** The result of a call: it returns a value or raises. *)
Inductive outcome (A : Type) : Type :=
| Return (a : A)
| Raise (e : exn).
Arguments Return {A} a.
Arguments Raise {A} e.

(** A postprocessor is a Python callable from a body to a body; [pp_repr]
    is its [repr], which the error message quotes. *)
Record postprocessor : Type := {
  pp_repr : string;
  pp_call : pyval -> outcome pyval
}.

(** The [action] dict that [queue_index] builds. *)
Record action : Type := {
  _op_type : string;
  _index : string;
  _type : string;
  _source : pyval
}.

(** [action['_source'] = v] *)
Definition set_source (a : action) (v : pyval) : action :=
  {| _op_type := _op_type a; _index := _index a; _type := _type a;
     _source := v |}.

(** The action as the Python value it is, a dict of four items. *)
Definition action_doc (a : action) : pyval :=
  PDict [("_op_type", PStr (_op_type a)); ("_index", PStr (_index a));
         ("_type", PStr (_type a)); ("_source", _source a)].

Definition queue_item : Type := action * list postprocessor.

(** Values of the configuration dict. *)
Inductive cval : Type :=
| CNone
| CInt (z : Z)
| CStr (s : string).

(** What the logger receives: the level and the message, the message kept
    as its format with its arguments. *)
Inductive message : Type :=
| PostprocessorRaised (repr : string)
| ErrorInFlushing
| ErrorInFallback (lost : nat)
| Flushed (n : nat)
| UnexpectedException
| CaughtTypeError
| FlushingOnTrigger
| FlushingAfterTimeout
| FlushTriggered
| PutAction (qlen : nat) (doc_type : string)
| HitMaxQueueLength.

Inductive log_record : Type :=
| Debug (m : message)
| Error (m : message).

(** The attributes of an [ActionQueue] object. *)
Record ActionQueue : Type := {
  config : gmap string cval;
  queue : list queue_item;
  _flush_event : bool;
  exceptions : list exn;
  running : bool
}.

(** The surroundings the object acts on: the records given to the logger,
    the arguments of the calls of [self._bulk], and the files that
    [self._open] reaches, by path. *)
Record world : Type := {
  log : list log_record;
  bulk_calls : list (list action);
  files : gmap string string
}.

Record state : Type := {
  self : ActionQueue;
  env : world
}.

(** [ActionQueue.__init__] *)
Definition __init__ (cfg : gmap string cval) : ActionQueue :=
  {| config := cfg; queue := []; _flush_event := false; exceptions := [];
     running := true |}.

(** ** The monad of methods *)

Definition M (A : Type) : Type := state -> outcome A * state.

Definition ret {A} (a : A) : M A := fun s => (Return a, s).

Definition raise {A} (e : exn) : M A := fun s => (Raise e, s).

Definition bind {A B} (m : M A) (k : A -> M B) : M B :=
  fun s =>
    match m s with
    | (Return a, s') => k a s'
    | (Raise e, s') => (Raise e, s')
    end.

Notation "'let*' x := m 'in' k" := (bind m (fun x => k))
  (at level 10, x name, m at level 200, k at level 200, only parsing).

(** [try: m except C: h], where [catches] tells the instances of [C]. *)
Definition try_except {A} (m : M A) (catches : exn -> bool) (h : exn -> M A)
  : M A :=
  fun s =>
    match m s with
    | (Return a, s') => (Return a, s')
    | (Raise e, s') => if catches e then h e s' else (Raise e, s')
    end.

Definition get_self : M ActionQueue := fun s => (Return (self s), s).

Definition modify_self (f : ActionQueue -> ActionQueue) : M unit :=
  fun s => (Return tt, {| self := f (self s); env := env s |}).

Definition modify_env (f : world -> world) : M unit :=
  fun s => (Return tt, {| self := self s; env := f (env s) |}).

Definition set_queue (q : list queue_item) (a : ActionQueue) : ActionQueue :=
  {| config := config a; queue := q; _flush_event := _flush_event a;
     exceptions := exceptions a; running := running a |}.

Definition set_flush_event (b : bool) (a : ActionQueue) : ActionQueue :=
  {| config := config a; queue := queue a; _flush_event := b;
     exceptions := exceptions a; running := running a |}.

Definition set_exceptions (l : list exn) (a : ActionQueue) : ActionQueue :=
  {| config := config a; queue := queue a; _flush_event := _flush_event a;
     exceptions := l; running := running a |}.

Definition set_running (b : bool) (a : ActionQueue) : ActionQueue :=
  {| config := config a; queue := queue a; _flush_event := _flush_event a;
     exceptions := exceptions a; running := b |}.

Definition add_log (r : log_record) (w : world) : world :=
  {| log := log w ++ [r]; bulk_calls := bulk_calls w; files := files w |}.

Definition add_bulk_call (acts : list action) (w : world) : world :=
  {| log := log w; bulk_calls := bulk_calls w ++ [acts]; files := files w |}.

Definition set_files (f : gmap string string) (w : world) : world :=
  {| log := log w; bulk_calls := bulk_calls w; files := f |}.

(** [self.logger.debug(...)] and [self.logger.error(...)] *)
Definition logger_debug (m : message) : M unit := modify_env (add_log (Debug m)).
Definition logger_error (m : message) : M unit := modify_env (add_log (Error m)).

(** [self.config[key]]: a missing key raises [KeyError]. *)
Definition config_get (key : string) : M cval :=
  let* a := get_self in
  match config a !! key with
  | Some v => ret v
  | None => raise (KeyError key)
  end.

(** [copy.deepcopy]: the values of the model are immutable, the copy is the
    value. *)
Definition deepcopy (v : pyval) : pyval := v.

(** ** The methods *)

(** The property [last_exception]. The subscript [-1] is the index
    [len - 1]; a subscript out of range raises [IndexError]. *)
Definition last_exception : M (option exn) :=
  let* a := get_self in
  if (length (exceptions a) =? 0)%nat then ret None
  else
    match exceptions a !! (length (exceptions a) - 1)%nat with
    | Some e => ret (Some e)
    | None => raise (IndexError "list index out of range")
    end.

(** A call of a Python callable, inside a method. *)
Definition call {A} (r : outcome A) : M A :=
  match r with
  | Return a => ret a
  | Raise e => raise e
  end.

(** The loop of [_run_postprocessors] over the postprocessors that remain. *)
Fixpoint run_postprocessors_loop (a : action) (pps : list postprocessor)
  : M action :=
  match pps with
  | [] => ret a
  | p :: rest =>
      let* a' :=
        try_except
          (let* v := call (pp_call p (deepcopy (_source a))) in
           ret (set_source a v))
          is_Exception
          (fun _ =>
             let* _ := logger_error (PostprocessorRaised (pp_repr p)) in
             ret a) in
      run_postprocessors_loop a' rest
  end.

Definition _run_postprocessors (item : queue_item) : M action :=
  let '(a, postprocessors) := item in
  run_postprocessors_loop a postprocessors.

(** [map(f, l)] of Python 2: the list is built at once, an exception of [f]
    ends it. *)
Fixpoint map_M {A B} (f : A -> M B) (l : list A) : M (list B) :=
  match l with
  | [] => ret []
  | x :: rest =>
      let* y := f x in
      let* ys := map_M f rest in
      ret (y :: ys)
  end.

(** [try: m except C: h else: els] *)
Definition try_except_else {A} (m : M unit) (catches : exn -> bool)
    (h : exn -> M A) (els : M A) : M A :=
  fun s =>
    match m s with
    | (Return _, s') => els s'
    | (Raise e, s') => if catches e then h e s' else (Raise e, s')
    end.

(** What the surroundings answer during one call of [_flush]: whether
    [self._bulk] raises, whether [self._open] raises, and which call of
    [log_file.write], counted from 0, raises. *)
Record flush_env : Type := {
  bulk_raises : option exn;
  open_raises : option exn;
  write_raises : option (nat * exn)
}.

(** [self._bulk(self.elasticsearch, actions)] *)
Definition _bulk (fe : flush_env) (actions : list action) : M unit :=
  let* _ := modify_env (add_bulk_call actions) in
  match bulk_raises fe with
  | None => ret tt
  | Some e => raise e
  end.

(** [self._open(name, 'a')]: the file is created when it is not there; the
    result is the path, which stands for the file object. *)
Definition _open (fe : flush_env) (name : cval) : M string :=
  match name with
  | CStr path =>
      match open_raises fe with
      | Some e => raise e
      | None =>
          let* _ := modify_env (fun w =>
            set_files (<[path := default "" (files w !! path)]> (files w)) w) in
          ret path
      end
  | _ => raise (TypeError "coercing to Unicode: need string or buffer")
  end.

(** [log_file.write(line)], the call number [i] on this file object. *)
Definition file_write (fe : flush_env) (log_file : string) (i : nat)
    (line : string) : M unit :=
  let append := modify_env (fun w =>
    set_files (<[log_file := default "" (files w !! log_file) +:+ line]>
                 (files w)) w) in
  match write_raises fe with
  | Some (j, e) => if (i =? j)%nat then raise e else append
  | None => append
  end.

(** [for line in json_lines: log_file.write(line)] *)
Fixpoint write_lines (fe : flush_env) (log_file : string) (i : nat)
    (json_lines : list string) : M unit :=
  match json_lines with
  | [] => ret tt
  | line :: rest =>
      let* _ := file_write fe log_file i line in
      write_lines fe log_file (S i) rest
  end.

Definition newline : string := String "010"%char "".

(** [self._flush_event.set()] after the debug message. *)
Definition trigger_flush : M unit :=
  let* _ := logger_debug FlushTriggered in
  modify_self (set_flush_event true).

(** [prefix + suffix] where [suffix] is a [str]. *)
Definition str_add (prefix : cval) (suffix : string) : M string :=
  match prefix with
  | CStr p => ret (p +:+ suffix)
  | _ => raise (TypeError "unsupported operand type(s) for +")
  end.

(** [n >= v] of Python 2 for an [int] [n]: [None] is below every value, a
    number is below every [str]. *)
Definition int_ge (n : nat) (v : cval) : bool :=
  match v with
  | CNone => true
  | CInt k => (k <=? Z.of_nat n)%Z
  | CStr _ => false
  end.

Definition is_not_None (v : cval) : bool :=
  match v with CNone => false | _ => true end.

Definition queue_index (suffix doc_type : string) (body : pyval)
    (postprocessors : option (list postprocessor)) : M unit :=
  let postprocessors := default [] postprocessors in
  let* prefix := config_get "index_prefix" in
  let* index := str_add prefix suffix in
  let action := {| _op_type := "index"; _index := index; _type := doc_type;
                   _source := body |} in
  let* _ := modify_self (fun a =>
              set_queue (queue a ++ [(action, postprocessors)]) a) in
  let* a := get_self in
  let* _ := logger_debug (PutAction (length (queue a)) doc_type) in
  let* max_queue_length := config_get "max_queue_length" in
  let* a := get_self in
  if is_not_None max_queue_length
     && int_ge (length (queue a)) max_queue_length
  then
    let* _ := logger_debug HitMaxQueueLength in
    trigger_flush
  else ret tt.

(** The two statements of [_flush] under [self.queue_lock]. *)
Definition swap_queue : M (list queue_item) :=
  let* a := get_self in
  let queue := queue a in
  let* _ := modify_self (set_queue []) in
  ret queue.

(** ** The thread: the points of [run]

    The thread is followed from one point of [run] to the next: the test of
    the [while], the call of [_flush] with its [except] clause, the head of
    the [finally] clause ([clear] and the lookup of the interval), and the
    wait. Between two of its steps the other threads may call the methods
    of the object. *)

Inductive exit : Type :=
| LoopEnd                 (* the test of the [while] was false *)
| WaitTypeError           (* [return] in [except TypeError] *)
| Uncaught (e : exn).     (* an exception left [run] *)

Inductive pc : Type :=
| AtLoopTest
| AtFlush
| AtClear
| AtWait
| Exited (r : exit).

(** What [Event.wait] meets when the flag is not set: the timer has not
    expired yet, the timer expires, or (the bug of Python threading the
    source names) the call raises [TypeError]. *)
Inductive wait_answer : Type :=
| StillWaiting
| TimerExpires
| WaitRaisesTypeError.

Record oracle : Type := {
  flush_answer : flush_env;
  wait_answers : wait_answer
}.

Record system : Type := {
  st : state;
  at_pc : pc
}.

(** The head of the [finally] clause. *)
Definition clear_and_interval : M cval :=
  let* _ := modify_self (set_flush_event false) in
  config_get "interval".

(** What happens, in the order in which it happens: a step of the thread,
    or a call from the main thread ([queue_index], [trigger_flush], or the
    assignment [self.running = b]). *)
Inductive event : Type :=
| Thread (o : oracle)
| Call_queue_index (suffix doc_type : string) (body : pyval)
    (postprocessors : option (list postprocessor))
| Call_trigger_flush
| Set_running (b : bool).

(** [start()]: the thread is at the test of the [while]. *)
Definition start (s : state) : system := {| st := s; at_pc := AtLoopTest |}.

(** The calls of [_flush] so far: each one calls [self._bulk] once. *)
Definition flushes (sys : system) : nat := length (bulk_calls (env (st sys))).

(** The thread has left [run]. *)
Definition is_exited (p : pc) : bool :=
  match p with Exited _ => true | _ => false end.

(** ** Auxiliary definitions of the statements *)

(** The state with records added to the log. *)
Definition with_log (lg : list log_record) (s : state) : state :=
  {| self := self s;
     env := {| log := log (env s) ++ lg; bulk_calls := bulk_calls (env s);
               files := files (env s) |} |}.

Definition with_exceptions (l : list exn) (s : state) : state :=
  {| self := set_exceptions l (self s); env := env s |}.

(** What [_run_postprocessors] computes, as a function: the action it
    returns and the records it logs ([run_postprocessors_loop_eq]). *)
Fixpoint postprocess (a : action) (pps : list postprocessor)
  : action * list log_record :=
  match pps with
  | [] => (a, [])
  | p :: rest =>
      match pp_call p (_source a) with
      | Return v => postprocess (set_source a v) rest
      | Raise _ =>
          (fst (postprocess a rest),
           Error (PostprocessorRaised (pp_repr p)) :: snd (postprocess a rest))
      end
  end.

(** The transforms of a list all return, each given the body the one before
    returned: from the body [b] they lead to the body [b']. *)
Inductive returns_chain : pyval -> list postprocessor -> pyval -> Prop :=
| returns_chain_nil (b : pyval) : returns_chain b [] b
| returns_chain_cons (b v b' : pyval) (p : postprocessor)
    (rest : list postprocessor) :
    pp_call p (deepcopy b) = Return v ->
    returns_chain v rest b' ->
    returns_chain b (p :: rest) b'.

(** The actions of a batch and the records logged while they are made. *)
Definition batch_actions (q : list queue_item) : list action :=
  map (fun item => fst (postprocess (fst item) (snd item))) q.

Definition batch_log (q : list queue_item) : list log_record :=
  concat (map (fun item => snd (postprocess (fst item) (snd item))) q).

Definition concat_lines (lines : list string) : string :=
  foldr String.append "" lines.

(** No call of [write] among the first [n] raises. *)
Definition writes_succeed (fe : flush_env) (n : nat) : bool :=
  match write_raises fe with
  | None => true
  | Some (j, _) => (n <=? j)%nat
  end.

(** The arguments of a call of [queue_index]. *)
Record index_call : Type := {
  ic_suffix : string;
  ic_doc_type : string;
  ic_body : pyval;
  ic_postprocessors : option (list postprocessor)
}.

(** Calls of [queue_index] one after the other; an exception ends them. *)
Fixpoint queue_index_all (cs : list index_call) : M unit :=
  match cs with
  | [] => ret tt
  | c :: rest =>
      let* _ := queue_index (ic_suffix c) (ic_doc_type c) (ic_body c)
                  (ic_postprocessors c) in
      queue_index_all rest
  end.

(** Two states that differ in the log at most. *)
Definition same_but_log (s1 s2 : state) : Prop :=
  self s1 = self s2
  /\ bulk_calls (env s1) = bulk_calls (env s2)
  /\ files (env s1) = files (env s2).

Definition same_system_but_log (sys1 sys2 : system) : Prop :=
  same_but_log (st sys1) (st sys2) /\ at_pc sys1 = at_pc sys2.

(** The item that [queue_index] appends. *)
Definition queued_item (prefix suffix doc_type : string) (body : pyval)
    (postprocessors : option (list postprocessor)) : queue_item :=
  ({| _op_type := "index"; _index := prefix +:+ suffix; _type := doc_type;
      _source := body |}, default [] postprocessors).

(** The state after the append and the debug message of [queue_index]. *)
Definition after_append (item : queue_item) (doc_type : string) (s : state)
  : state :=
  {| self := set_queue (queue (self s) ++ [item]) (self s);
     env := add_log (Debug (PutAction (length (queue (self s) ++ [item]))
                              doc_type)) (env s) |}.

(** The state after the postprocessing of the batch [q] and the call of
    [self._bulk]. *)
Definition after_bulk (q : list queue_item) (s : state) : state :=
  snd (modify_env (add_bulk_call (batch_actions q)) (with_log (batch_log q) s)).

(** The state with the content [c] in the file at [path]. *)
Definition with_file (path c : string) (s : state) : state :=
  {| self := self s; env := set_files (<[path := c]> (files (env s))) (env s) |}.

(** Whatever the writes do, they touch the files only. *)
Definition files_only (s s' : state) : Prop :=
  self s' = self s
  /\ log (env s') = log (env s)
  /\ bulk_calls (env s') = bulk_calls (env s).

(** The fallback write fails with an I/O error: [open] raises [IOError], or
    a call of [write] for one of the [n] lines does. *)
Definition fallback_io_error (fe : flush_env) (n : nat) : Prop :=
  (exists m, open_raises fe = Some (IOError m))
  \/ (open_raises fe = None
      /\ exists j m, write_raises fe = Some (j, IOError m) /\ j < n).

(** Records wait in the queue and the thread has not left the loop by its
    test, unless a flush has been made since the count [n]. *)
Definition pending_or_flushed (n : nat) (sys : system) : Prop :=
  n < flushes sys
  \/ (n <= flushes sys /\ queue (self (st sys)) <> []
      /\ at_pc sys <> Exited LoopEnd).

(** A computation respects the log when, on two states that differ in the
    log at most, it gives the same result and two such states again. *)
Definition respects {A : Type} (m : M A) : Prop :=
  forall s1 s2 : state,
    same_but_log s1 s2 ->
    fst (m s1) = fst (m s2) /\ same_but_log (snd (m s1)) (snd (m s2)).

(** The item that a call of [queue_index] puts in the queue under the
    configuration [cfg]: none when [cfg['index_prefix']] is not a string,
    for the call raises before the append. *)
Definition queued_by_call (cfg : gmap string cval) (suffix doc_type : string)
    (body : pyval) (postprocessors : option (list postprocessor))
  : list queue_item :=
  match cfg !! "index_prefix" with
  | Some (CStr prefix) => [queued_item prefix suffix doc_type body postprocessors]
  | _ => []
  end.

(** The items an event puts in the queue. *)
Definition queued_by (cfg : gmap string cval) (ev : event) : list queue_item :=
  match ev with
  | Call_queue_index suffix doc_type body pps =>
      queued_by_call cfg suffix doc_type body pps
  | _ => []
  end.

(** The actions the bulk write has been given so far, call after call,
    followed by the actions of the records that wait in the queue. *)
Definition handed_over (sys : system) : list action :=
  concat (bulk_calls (env (st sys)))
  ++ batch_actions (queue (self (st sys))).

(** An event of the main thread. *)
Definition is_call (ev : event) : bool :=
  match ev with Thread _ => false | _ => true end.

(** [cfg['index_prefix']] is a string. *)
Definition has_index_prefix (cfg : gmap string cval) : bool :=
  match cfg !! "index_prefix" with
  | Some (CStr _) => true
  | _ => false
  end.

(** An event that neither asks the thread to stop nor makes [Event.wait]
    raise [TypeError]. *)
Definition keeps_running (ev : event) : bool :=
  match ev with
  | Thread o =>
      match wait_answers o with
      | WaitRaisesTypeError => false
      | _ => true
      end
  | Set_running b => b
  | _ => true
  end.

(** A serializer to run the methods with: it writes a value as [json.dumps]
    writes it when the strings in it need no escape, the items of a dict in
    the order of the list. *)
Definition quoted (s : string) : string :=
  String "034"%char (s +:+ String "034"%char "").

Fixpoint join_comma (l : list string) : string :=
  match l with
  | [] => ""
  | [x] => x
  | x :: rest => x +:+ ", " +:+ join_comma rest
  end.

Fixpoint dumps_plain (v : pyval) : string :=
  match v with
  | PNone => "null"
  | PBool true => "true"
  | PBool false => "false"
  | PInt z => pretty z
  | PStr s => quoted s
  | PList l => "[" +:+ join_comma (map dumps_plain l) +:+ "]"
  | PDict items =>
      "{" +:+ join_comma (map (fun '(k, x) => quoted k +:+ ": " +:+ dumps_plain x)
                            items) +:+ "}"
  end.

(** ** Sample data, for the statements at concrete inputs *)

Definition ex_config (max_queue_length : cval) : gmap string cval :=
  list_to_map [("index_prefix", CStr "logs-");
               ("max_queue_length", max_queue_length);
               ("interval", CInt 30);
               ("fallback_log_file", CStr "fallback.log")].

(** A configuration with no key [max_queue_length]. *)
Definition ex_config_unset : gmap string cval :=
  list_to_map [("index_prefix", CStr "logs-");
               ("interval", CInt 30);
               ("fallback_log_file", CStr "fallback.log")].

Definition ex_world : world := {| log := []; bulk_calls := []; files := ∅ |}.

(** A new object, before [start()]. *)
Definition ex_new (cfg : gmap string cval) : state :=
  {| self := __init__ cfg; env := ex_world |}.

(** A postprocessor that raises, and one that adds an item to the body. *)
Definition ex_raising : postprocessor :=
  {| pp_repr := "<function raising>";
     pp_call := fun _ => Raise (OtherError "no") |}.

Definition ex_add_b : postprocessor :=
  {| pp_repr := "<function add_b>";
     pp_call := fun v =>
       match v with
       | PDict items => Return (PDict (items ++ [("b", PInt 2)]))
       | _ => Raise (TypeError "not a dict")
       end |}.

(** One that puts another item in front of the body. *)
Definition ex_add_c : postprocessor :=
  {| pp_repr := "<function add_c>";
     pp_call := fun v =>
       match v with
       | PDict items => Return (PDict (("c", PInt 3) :: items))
       | _ => Raise (TypeError "not a dict")
       end |}.

Definition ex_body : pyval := PDict [("a", PInt 1)].

Definition ex_action : action :=
  {| _op_type := "index"; _index := "logs-x"; _type := "t";
     _source := ex_body |}.

Definition ex_calls : list index_call :=
  [ {| ic_suffix := "x"; ic_doc_type := "t"; ic_body := ex_body;
       ic_postprocessors := None |};
    {| ic_suffix := "y"; ic_doc_type := "u"; ic_body := PDict [];
       ic_postprocessors := Some [ex_raising; ex_add_b] |} ].

(** The state of a new object with one document in the queue. *)
Definition ex_one_queued : state :=
  snd (queue_index "x" "t" ex_body None (ex_new (ex_config CNone))).

(** With [max_queue_length = 2] and one document in the queue. *)
Definition ex_one_queued_max2 : state :=
  snd (queue_index "x" "t" ex_body None (ex_new (ex_config (CInt 2)))).

(** After the calls [ex_calls] on a new object. *)
Definition ex_two_queued : state :=
  snd (queue_index_all ex_calls (ex_new (ex_config CNone))).

Definition ex_bulk_ok : flush_env :=
  {| bulk_raises := None; open_raises := None; write_raises := None |}.

Definition ex_transport_error : flush_env :=
  {| bulk_raises := Some (TransportError "connection refused");
     open_raises := None; write_raises := None |}.

Definition ex_unwritable : flush_env :=
  {| bulk_raises := Some (TransportError "connection refused");
     open_raises := Some (IOError "permission denied");
     write_raises := None |}.

Definition ex_waiting : oracle :=
  {| flush_answer := ex_bulk_ok; wait_answers := StillWaiting |}.

Definition ex_timer : oracle :=
  {| flush_answer := ex_bulk_ok; wait_answers := TimerExpires |}.

Definition ex_type_error : oracle :=
  {| flush_answer := ex_bulk_ok; wait_answers := WaitRaisesTypeError |}.

(** The thread of a new object at its first wait: the test, the flush of the
    empty queue and the head of the [finally] clause are behind it. *)
Definition ex_to_first_wait : list event :=
  [Thread ex_waiting; Thread ex_waiting; Thread ex_waiting].

(** Then a document is queued and [running] is set to false. *)
Definition ex_stop_with_pending : list event :=
  ex_to_first_wait ++ [Call_queue_index "x" "t" ex_body None; Set_running false].

(** Or [running] is set to false with nothing in the queue. *)
Definition ex_stop_idle : list event :=
  ex_to_first_wait ++ [Set_running false].

(** Configurations that lack a key each. *)
Definition ex_config_no_prefix : gmap string cval :=
  list_to_map [("max_queue_length", CNone); ("interval", CInt 30);
               ("fallback_log_file", CStr "fallback.log")].

Definition ex_config_no_fallback : gmap string cval :=
  list_to_map [("index_prefix", CStr "logs-"); ("max_queue_length", CNone);
               ("interval", CInt 30)].

Definition ex_config_no_interval : gmap string cval :=
  list_to_map [("index_prefix", CStr "logs-"); ("max_queue_length", CNone);
               ("fallback_log_file", CStr "fallback.log")].

(** After the calls [ex_calls] on a new object without fallback file. *)
Definition ex_two_queued_no_fallback : state :=
  snd (queue_index_all ex_calls (ex_new ex_config_no_fallback)).

(** A new object with [running] set to false. *)
Definition ex_stopped : state :=
  snd (modify_self (set_running false) (ex_new (ex_config CNone))).

(** The bulk write raises an exception that is no transport error. *)
Definition ex_other_bulk_error : flush_env :=
  {| bulk_raises := Some (OtherError "bulk index error");
     open_raises := None; write_raises := None |}.

(** The second call of [write] raises [IOError]. *)
Definition ex_second_write_fails : flush_env :=
  {| bulk_raises := Some (TransportError "connection refused");
     open_raises := None;
     write_raises := Some (1, IOError "no space left on device") |}.

(** [open] raises an exception that is no [IOError]. *)
Definition ex_open_other_error : flush_env :=
  {| bulk_raises := Some (TransportError "connection refused");
     open_raises := Some (OtherError "not a file");
     write_raises := None |}.

(** The thread of a new object just after its first flush. *)
Definition ex_to_first_clear : list event :=
  [Thread ex_waiting; Thread ex_waiting].

Section WithDumps.

(** [json.dumps], on the JSON data of [pyval]: there it returns a string. *)
Variable dumps : pyval -> string.

(** The body of the [with] statement of [_flush] and its header. *)
Definition write_fallback (fe : flush_env) (actions : list action) : M unit :=
  let* name := config_get "fallback_log_file" in
  let* log_file := _open fe name in
  let json_lines := map (fun doc => dumps (action_doc doc) +:+ newline) actions in
  write_lines fe log_file 0 json_lines.

(** [_flush] after the swap, on the items taken from the queue. *)
Definition flush_batch (fe : flush_env) (queue : list queue_item) : M unit :=
  let* actions := map_M _run_postprocessors queue in
  try_except_else
    (_bulk fe actions)
    is_TransportError
    (fun _ =>
       let* _ := logger_error ErrorInFlushing in
       try_except
         (write_fallback fe actions)
         is_IOError
         (fun _ => logger_error (ErrorInFallback (length actions))))
    (logger_debug (Flushed (length actions))).

(** [_flush]: the swap under the lock, then the batch. *)
Definition _flush (fe : flush_env) : M unit :=
  let* queue := swap_queue in
  flush_batch fe queue.

(** The [try] statement of [run] up to its [finally] clause. *)
Definition flush_guarded (fe : flush_env) : M unit :=
  try_except
    (_flush fe)
    is_Exception
    (fun exc =>
       let* _ := logger_error UnexpectedException in
       modify_self (fun a => set_exceptions (exceptions a ++ [exc]) a)).

(** One step of [run], from the point [at_pc sys] to the next. At the wait,
    [Event.wait] returns true when the event is set, returns the flag when
    the timer expires, and keeps the thread where it is otherwise. *)
Definition thread_step (o : oracle) (sys : system) : system :=
  let s := st sys in
  match at_pc sys with
  | AtLoopTest =>
      if running (self s) || (0 <? length (queue (self s)))%nat
      then {| st := s; at_pc := AtFlush |}
      else {| st := s; at_pc := Exited LoopEnd |}
  | AtFlush =>
      match flush_guarded (flush_answer o) s with
      | (Return _, s') => {| st := s'; at_pc := AtClear |}
      | (Raise e, s') => {| st := s'; at_pc := Exited (Uncaught e) |}
      end
  | AtClear =>
      match clear_and_interval s with
      | (Return _, s') => {| st := s'; at_pc := AtWait |}
      | (Raise e, s') => {| st := s'; at_pc := Exited (Uncaught e) |}
      end
  | AtWait =>
      match wait_answers o with
      | WaitRaisesTypeError =>
          {| st := snd (logger_debug CaughtTypeError s);
             at_pc := Exited WaitTypeError |}
      | TimerExpires =>
          (* [wait] returns the flag *)
          if _flush_event (self s)
          then {| st := snd (logger_debug FlushingOnTrigger s);
                  at_pc := AtLoopTest |}
          else {| st := snd (logger_debug FlushingAfterTimeout s);
                  at_pc := AtLoopTest |}
      | StillWaiting =>
          if _flush_event (self s)
          then {| st := snd (logger_debug FlushingOnTrigger s);
                  at_pc := AtLoopTest |}
          else sys
      end
  | Exited _ => sys
  end.

(** One event. An exception of a call from the main thread goes to the
    caller; the state is as the call left it. *)
Definition step (ev : event) (sys : system) : system :=
  match ev with
  | Thread o => thread_step o sys
  | Call_queue_index suffix doc_type body pps =>
      {| st := snd (queue_index suffix doc_type body pps (st sys));
         at_pc := at_pc sys |}
  | Call_trigger_flush =>
      {| st := snd (trigger_flush (st sys)); at_pc := at_pc sys |}
  | Set_running b =>
      {| st := snd (modify_self (set_running b) (st sys));
         at_pc := at_pc sys |}
  end.

(** The events of a list, in order. *)
Definition exec (evs : list event) (sys : system) : system :=
  fold_left (fun sys ev => step ev sys) evs sys.

(** [run], from its first statement, for one step per answer, when the main
    thread calls nothing meanwhile. *)
Definition run (answers : list oracle) (s : state) : system :=
  exec (map Thread answers) (start s).

(** The lines of the fallback file for a list of actions. *)
Definition json_lines_of (actions : list action) : list string :=
  map (fun doc => dumps (action_doc doc) +:+ newline) actions.

(** ** Properties *)

Ltac unfold_M :=
  unfold bind, ret, raise, call, try_except, try_except_else, get_self,
    modify_self, modify_env, logger_debug, logger_error, config_get in *.

(** *** [last_exception] *)

(** C10. The accessor [last_exception] returns [None] when the list of
    exceptions is empty and the exception appended last otherwise; it raises
    nothing and leaves the state, the list of exceptions included, as it
    was. *)
Theorem last_exception_spec (s : state) :
  last_exception (with_exceptions [] s) = (Return None, with_exceptions [] s)
  /\ forall (l : list exn) (e : exn),
       last_exception (with_exceptions (l ++ [e]) s)
       = (Return (Some e), with_exceptions (l ++ [e]) s).
Proof.
  split; [reflexivity|].
  intros l e. unfold last_exception. unfold_M. cbn.
  rewrite length_app, Nat.add_comm. cbn.
  rewrite Nat.sub_0_r, lookup_app_r by lia.
  now rewrite Nat.sub_diag.
Qed.

(** *** [_run_postprocessors] *)

Lemma run_postprocessors_loop_eq (pps : list postprocessor) :
  forall (a : action) (s : state),
    run_postprocessors_loop a pps s
    = (Return (fst (postprocess a pps)), with_log (snd (postprocess a pps)) s).
Proof.
  induction pps as [|p rest IH]; intros a s; cbn.
  - unfold ret, with_log. destruct s as [sf [lg bc fs]]; cbn.
    now rewrite app_nil_r.
  - unfold bind at 1. unfold try_except, deepcopy, bind, call.
    destruct (pp_call p (_source a)) as [v|e]; cbn.
    + apply IH.
    + rewrite IH. unfold with_log; cbn. now rewrite <- app_assoc.
Qed.

Lemma run_postprocessors_eq (item : queue_item) (s : state) :
  _run_postprocessors item s
  = (Return (fst (postprocess (fst item) (snd item))),
     with_log (snd (postprocess (fst item) (snd item))) s).
Proof. destruct item as [a pps]. apply run_postprocessors_loop_eq. Qed.

Lemma with_log_nil (s : state) : with_log [] s = s.
Proof.
  destruct s as [sf [lg bc fs]]; unfold with_log; cbn. now rewrite app_nil_r.
Qed.

Lemma with_log_app (l1 l2 : list log_record) (s : state) :
  with_log l2 (with_log l1 s) = with_log (l1 ++ l2) s.
Proof. unfold with_log; cbn. now rewrite app_assoc. Qed.

Lemma map_run_postprocessors_eq (q : list queue_item) :
  forall s : state,
    map_M _run_postprocessors q s
    = (Return (batch_actions q), with_log (batch_log q) s).
Proof.
  induction q as [|item rest IH]; intros s; cbn.
  - unfold ret. now rewrite with_log_nil.
  - unfold bind at 1. rewrite run_postprocessors_eq.
    unfold bind at 1. rewrite IH. unfold ret.
    now rewrite with_log_app.
Qed.

Lemma postprocess_app (pre post : list postprocessor) :
  forall a : action,
    postprocess a (pre ++ post)
    = (fst (postprocess (fst (postprocess a pre)) post),
       snd (postprocess a pre) ++ snd (postprocess (fst (postprocess a pre)) post)).
Proof.
  induction pre as [|p pre IH]; intros a; cbn.
  - now destruct (postprocess a post).
  - destruct (pp_call p (_source a)) as [v|e]; cbn.
    + apply IH.
    + now rewrite IH.
Qed.

Lemma set_source_source (a : action) : set_source a (_source a) = a.
Proof. now destruct a. Qed.

Lemma postprocess_returns_chain (pps : list postprocessor) :
  forall (a : action) (b' : pyval),
    returns_chain (_source a) pps b' ->
    postprocess a pps = (set_source a b', []).
Proof.
  induction pps as [|p rest IH]; intros a b' H; inversion H; subst; cbn.
  - now rewrite set_source_source.
  - unfold deepcopy in *.
    match goal with Hc : pp_call p (_source a) = Return _ |- _ =>
      rewrite Hc end.
    now rewrite (IH (set_source a v) b').
Qed.

(** C3. When a transform raises in [_run_postprocessors], the action keeps
    the body it had before that transform, which is the output of the
    earlier transforms: a transform that returns hands its output, as the
    body, to the ones after it. The transforms after the one that raised
    run on that body, and their output is the body of the action that comes
    out. Nothing is raised: [_run_postprocessors] returns for every item, so
    the whole batch is mapped, action for item. *)
Theorem run_postprocessors_failing_transform
    (a a1 : action) (pre post : list postprocessor) (p : postprocessor)
    (e : exn) (s s1 : state) :
  _run_postprocessors (a, pre) s = (Return a1, s1) ->
  pp_call p (deepcopy (_source a1)) = Raise e ->
  _run_postprocessors (a, pre ++ [p]) s
  = (Return a1, snd (logger_error (PostprocessorRaised (pp_repr p)) s1))
  /\ _run_postprocessors (a, pre ++ p :: post) s
     = _run_postprocessors (a1, post)
         (snd (logger_error (PostprocessorRaised (pp_repr p)) s1))
  /\ (forall (item : queue_item) (s0 : state),
        exists a' s', _run_postprocessors item s0 = (Return a', s'))
  /\ (forall (q : list queue_item) (s0 : state),
        exists actions s',
          map_M _run_postprocessors q s0 = (Return actions, s')
          /\ length actions = length q)
  /\ (forall (a0 : action) (s0 : state),
        _run_postprocessors (a0, []) s0 = (Return a0, s0))
  /\ (forall (a0 : action) (q : postprocessor) (rest : list postprocessor)
         (v : pyval) (s0 : state),
        pp_call q (deepcopy (_source a0)) = Return v ->
        _run_postprocessors (a0, q :: rest) s0
        = _run_postprocessors (set_source a0 v, rest) s0)
  /\ (forall b2 : pyval,
        returns_chain (_source a1) post b2 ->
        _run_postprocessors (a, pre ++ p :: post) s
        = (Return (set_source a1 b2),
           snd (logger_error (PostprocessorRaised (pp_repr p)) s1)))
  /\ (forall b1 b2 : pyval,
        returns_chain (_source a) pre b1 ->
        returns_chain b1 post b2 ->
        a1 = set_source a b1
        /\ s1 = s
        /\ _run_postprocessors (a, pre ++ p :: post) s
           = (Return (set_source a b2),
              snd (logger_error (PostprocessorRaised (pp_repr p)) s))).
Proof.
  intros Hpre Hp. unfold deepcopy in Hp.
  rewrite run_postprocessors_eq in Hpre. cbn in Hpre.
  injection Hpre as Ha1 Hs1.
  assert (Hgen : forall post',
    _run_postprocessors (a, pre ++ p :: post') s
    = _run_postprocessors (a1, post')
        (snd (logger_error (PostprocessorRaised (pp_repr p)) s1))).
  { intros post'. rewrite !run_postprocessors_eq. cbn [fst snd].
    rewrite postprocess_app. cbn [fst snd postprocess].
    rewrite Ha1, Hp. cbn [fst snd]. f_equal.
    subst s1. unfold logger_error, modify_env, add_log, with_log. cbn.
    now rewrite <- !app_assoc. }
  assert (Hchain : forall b2 : pyval,
    returns_chain (_source a1) post b2 ->
    _run_postprocessors (a, pre ++ p :: post) s
    = (Return (set_source a1 b2),
       snd (logger_error (PostprocessorRaised (pp_repr p)) s1))).
  { intros b2 Hc. rewrite Hgen, run_postprocessors_eq. cbn [fst snd].
    rewrite (postprocess_returns_chain post a1 b2 Hc). cbn [fst snd].
    now rewrite with_log_nil. }
  split; [|split; [|split; [|split; [|split; [|split; [|split]]]]]].
  - rewrite (Hgen []). rewrite run_postprocessors_eq. cbn.
    now rewrite with_log_nil.
  - apply Hgen.
  - intros item s0. rewrite run_postprocessors_eq. eauto.
  - intros q s0. rewrite map_run_postprocessors_eq.
    eexists _, _. split; [reflexivity|].
    unfold batch_actions. now rewrite length_map.
  - intros a0 s0. rewrite run_postprocessors_eq. cbn.
    now rewrite with_log_nil.
  - intros a0 q rest v s0 Hq. unfold deepcopy in Hq.
    rewrite !run_postprocessors_eq. cbn [fst snd postprocess].
    now rewrite Hq.
  - exact Hchain.
  - intros b1 b2 Hc1 Hc2.
    rewrite (postprocess_returns_chain pre a b1 Hc1) in Ha1, Hs1.
    cbn [fst snd] in Ha1, Hs1. rewrite with_log_nil in Hs1.
    subst a1 s1. split; [reflexivity|]. split; [reflexivity|].
    rewrite (Hchain b2) by exact Hc2. reflexivity.
Qed.

(** *** [queue_index] and [trigger_flush] *)

Lemma queue_index_eq (suffix doc_type : string) (body : pyval)
    (pps : option (list postprocessor)) (prefix : string) (s : state) :
  config (self s) !! "index_prefix" = Some (CStr prefix) ->
  let item := queued_item prefix suffix doc_type body pps in
  let s1 := after_append item doc_type s in
  queue_index suffix doc_type body pps s
  = match config (self s) !! "max_queue_length" with
    | None => (Raise (KeyError "max_queue_length"), s1)
    | Some v =>
        if is_not_None v && int_ge (length (queue (self s) ++ [item])) v
        then (Return tt,
              snd (trigger_flush (snd (logger_debug HitMaxQueueLength s1))))
        else (Return tt, s1)
    end.
Proof.
  intros Hp item s1. unfold queue_index. unfold_M. cbn.
  rewrite Hp. cbn.
  destruct (config (self s) !! "max_queue_length") as [v|]; cbn; [|reflexivity].
  destruct (is_not_None v && int_ge _ v); reflexivity.
Qed.

(** C4, as the code has it. With [max_queue_length] in the configuration
    and [None] (and an [index_prefix] that is a string), [queue_index]
    returns, and all it does is append the item to the queue and log the
    debug message: the flush event and the rest of the state stay as they
    were. *)
Theorem queue_index_max_queue_length_None
    (suffix doc_type : string) (body : pyval)
    (pps : option (list postprocessor)) (prefix : string) (s : state) :
  config (self s) !! "index_prefix" = Some (CStr prefix) ->
  config (self s) !! "max_queue_length" = Some CNone ->
  let item := queued_item prefix suffix doc_type body pps in
  queue_index suffix doc_type body pps s
  = (Return tt,
     {| self := set_queue (queue (self s) ++ [item]) (self s);
        env := add_log (Debug (PutAction (length (queue (self s) ++ [item]))
                                 doc_type)) (env s) |})
  /\ _flush_event (self (snd (queue_index suffix doc_type body pps s)))
     = _flush_event (self s).
Proof.
  intros Hp Hm item.
  rewrite (queue_index_eq _ _ _ _ prefix) by exact Hp.
  rewrite Hm. cbn. split; reflexivity.
Qed.

(** C5. With [max_queue_length = k], the call of [queue_index] that brings
    the length of the queue to [k] (or beyond) returns with the flush event
    set; the item is in the queue and no bulk write has been made: the call
    sets the signal and does not flush. *)
Theorem queue_index_reaching_max_sets_event
    (suffix doc_type : string) (body : pyval)
    (pps : option (list postprocessor)) (prefix : string) (k : Z)
    (s : state) :
  config (self s) !! "index_prefix" = Some (CStr prefix) ->
  config (self s) !! "max_queue_length" = Some (CInt k) ->
  (0 < k)%Z ->
  (k <= Z.of_nat (length (queue (self s)) + 1))%Z ->
  exists s' : state,
    queue_index suffix doc_type body pps s = (Return tt, s')
    /\ _flush_event (self s') = true
    /\ queue (self s')
       = queue (self s) ++ [queued_item prefix suffix doc_type body pps]
    /\ bulk_calls (env s') = bulk_calls (env s)
    /\ files (env s') = files (env s).
Proof.
  intros Hp Hm Hk Hlen.
  rewrite (queue_index_eq _ _ _ _ prefix) by exact Hp.
  rewrite Hm. cbn [is_not_None int_ge andb].
  rewrite length_app. cbn [length].
  destruct (Z.leb_spec k (Z.of_nat (length (queue (self s)) + 1))) as [_|Hlt];
    [|lia].
  eexists. split; [reflexivity|]. cbn. auto.
Qed.

(** *** [_flush] *)

Lemma string_app_nil_r (a : string) : a +:+ "" = a.
Proof.
  induction a as [|x a IH]; [reflexivity|].
  change (String x (a +:+ "") = String x a). now rewrite IH.
Qed.

Lemma string_app_assoc (a b c : string) : (a +:+ b) +:+ c = a +:+ (b +:+ c).
Proof.
  induction a as [|x a IH]; [reflexivity|].
  change (String x ((a +:+ b) +:+ c) = String x (a +:+ (b +:+ c))).
  now rewrite IH.
Qed.

Lemma swap_queue_eq (s : state) :
  swap_queue s
  = (Return (queue (self s)), {| self := set_queue [] (self s); env := env s |}).
Proof. reflexivity. Qed.

Lemma flush_batch_eq (fe : flush_env) (q : list queue_item) (s : state) :
  flush_batch fe q s
  = match bulk_raises fe with
    | None => (Return tt, snd (logger_debug (Flushed (length q)) (after_bulk q s)))
    | Some e =>
        if is_TransportError e then
          match write_fallback fe (batch_actions q)
                  (snd (logger_error ErrorInFlushing (after_bulk q s))) with
          | (Return _, s4) => (Return tt, s4)
          | (Raise e', s4) =>
              if is_IOError e'
              then (Return tt, snd (logger_error (ErrorInFallback (length q)) s4))
              else (Raise e', s4)
          end
        else (Raise e, after_bulk q s)
    end.
Proof.
  unfold flush_batch. unfold bind at 1. rewrite map_run_postprocessors_eq.
  unfold try_except_else, _bulk, after_bulk.
  unfold bind at 1. cbn [modify_env snd].
  assert (Hlen : length (batch_actions q) = length q)
    by (unfold batch_actions; now rewrite length_map).
  rewrite Hlen.
  destruct (bulk_raises fe) as [e|]; cbn.
  - destruct (is_TransportError e); [|reflexivity].
    unfold try_except.
    destruct (write_fallback fe (batch_actions q) _) as [[[]|e'] s4]; reflexivity.
  - reflexivity.
Qed.

Lemma with_file_with_file (path c1 c2 : string) (s : state) :
  with_file path c2 (with_file path c1 s) = with_file path c2 s.
Proof. unfold with_file, set_files; cbn. now rewrite insert_insert_eq. Qed.

(** The writes of the lines [lines], numbered from [i], when none raises. *)
Lemma write_lines_succeed (fe : flush_env) (path : string)
    (lines : list string) :
  forall (i : nat) (c : string) (s : state),
    writes_succeed fe (i + length lines) = true ->
    files (env s) !! path = Some c ->
    write_lines fe path i lines s
    = (Return tt, with_file path (c +:+ concat_lines lines) s).
Proof.
  induction lines as [|line rest IH]; intros i c s Hw Hc; cbn.
  - unfold ret, with_file, set_files. rewrite string_app_nil_r.
    rewrite insert_id by exact Hc. now destruct s as [sf [lg bc fs]].
  - unfold bind at 1. unfold file_write.
    assert (Hstep : (match write_raises fe with
                     | Some (j, e) =>
                         if (i =? j)%nat then raise e
                         else modify_env (fun w =>
                           set_files (<[path := default "" (files w !! path)
                                                +:+ line]> (files w)) w)
                     | None => modify_env (fun w =>
                           set_files (<[path := default "" (files w !! path)
                                                +:+ line]> (files w)) w)
                     end) s = (Return tt, with_file path (c +:+ line) s)).
    { unfold writes_succeed in Hw. cbn [length] in Hw.
      destruct (write_raises fe) as [[j e]|].
      - apply Nat.leb_le in Hw.
        destruct (Nat.eqb_spec i j) as [->|_]; [lia|].
        unfold modify_env, with_file. now rewrite Hc.
      - unfold modify_env, with_file. now rewrite Hc. }
    rewrite Hstep.
    rewrite (IH (S i) (c +:+ line)).
    + rewrite with_file_with_file. now rewrite string_app_assoc.
    + cbn [length] in Hw. now replace (S i + length rest) with (i + S (length rest)) by lia.
    + unfold with_file; cbn. apply lookup_insert_eq.
Qed.

Lemma files_only_refl (s : state) : files_only s s.
Proof. unfold files_only; auto. Qed.

Lemma files_only_trans (s1 s2 s3 : state) :
  files_only s1 s2 -> files_only s2 s3 -> files_only s1 s3.
Proof. unfold files_only; intuition congruence. Qed.

Lemma file_write_frame (fe : flush_env) (path : string) (i : nat)
    (line : string) (s : state) :
  files_only s (snd (file_write fe path i line s)).
Proof.
  unfold file_write.
  destruct (write_raises fe) as [[j e]|]; [destruct (i =? j)%nat|];
    apply files_only_refl || (unfold files_only; cbn; auto).
Qed.

Lemma write_lines_frame (fe : flush_env) (path : string) (lines : list string) :
  forall (i : nat) (s : state),
    files_only s (snd (write_lines fe path i lines s)).
Proof.
  induction lines as [|line rest IH]; intros i s; cbn [write_lines].
  - apply files_only_refl.
  - unfold bind. pose proof (file_write_frame fe path i line s) as Hfw.
    destruct (file_write fe path i line s) as [[[]|e] s1]; cbn [snd] in *.
    + eapply files_only_trans; [exact Hfw|apply IH].
    + exact Hfw.
Qed.

Lemma write_fallback_frame (fe : flush_env) (actions : list action) (s : state) :
  files_only s (snd (write_fallback fe actions s)).
Proof.
  unfold write_fallback. unfold_M. cbn.
  destruct (config (self s) !! "fallback_log_file") as [[| |path]|]; cbn;
    try apply files_only_refl.
  unfold _open. destruct (open_raises fe); cbn; try apply files_only_refl.
  match goal with |- context [write_lines fe path 0 ?l ?s'] =>
    eapply files_only_trans; [|apply (write_lines_frame fe path l 0 s')] end.
  unfold files_only; cbn; auto.
Qed.

Lemma flush_batch_frame (fe : flush_env) (q : list queue_item) (s : state) :
  self (snd (flush_batch fe q s)) = self s
  /\ bulk_calls (env (snd (flush_batch fe q s)))
     = bulk_calls (env s) ++ [batch_actions q].
Proof.
  rewrite flush_batch_eq.
  destruct (bulk_raises fe) as [e|]; [|cbn; auto].
  destruct (is_TransportError e); [|cbn; auto].
  match goal with |- context [write_fallback fe ?a ?s'] =>
    pose proof (write_fallback_frame fe a s') as (H1 & _ & H3);
    destruct (write_fallback fe a s') as [[[]|e'] s4] end;
    cbn [snd] in *; [|destruct (is_IOError e')]; cbn; rewrite ?H1, ?H3; auto.
Qed.

Lemma flush_frame (fe : flush_env) (s : state) :
  self (snd (_flush fe s)) = set_queue [] (self s)
  /\ bulk_calls (env (snd (_flush fe s)))
     = bulk_calls (env s) ++ [batch_actions (queue (self s))].
Proof.
  unfold _flush. unfold bind. rewrite swap_queue_eq.
  match goal with |- context [flush_batch fe ?q ?s'] =>
    destruct (flush_batch_frame fe q s') as (H1 & H2) end.
  rewrite H1, H2. auto.
Qed.

Lemma flush_eq_batch (fe : flush_env) (s : state) :
  _flush fe s
  = flush_batch fe (queue (self s))
      {| self := set_queue [] (self s); env := env s |}.
Proof. reflexivity. Qed.

(** One call of [queue_index] that returns: what it leaves. *)
Lemma queue_index_returns (suffix doc_type : string) (body : pyval)
    (pps : option (list postprocessor)) (s s' : state) :
  queue_index suffix doc_type body pps s = (Return tt, s') ->
  exists prefix : string,
    config (self s) !! "index_prefix" = Some (CStr prefix)
    /\ queue (self s')
       = queue (self s) ++ [queued_item prefix suffix doc_type body pps]
    /\ config (self s') = config (self s)
    /\ bulk_calls (env s') = bulk_calls (env s).
Proof.
  destruct (config (self s) !! "index_prefix") as [[| |prefix]|] eqn:Hp.
  1,2,4: unfold queue_index; unfold_M; cbn; rewrite Hp; cbn; discriminate.
  rewrite (queue_index_eq _ _ _ _ prefix) by exact Hp.
  intros H. exists prefix. split; [reflexivity|].
  destruct (config (self s) !! "max_queue_length") as [v|]; [|discriminate].
  destruct (is_not_None v && int_ge _ v); injection H as <-; cbn; auto.
Qed.

Lemma queue_index_all_returns (cs : list index_call) :
  forall s s' : state,
    queue_index_all cs s = (Return tt, s') ->
    exists items : list queue_item,
      queue (self s') = queue (self s) ++ items
      /\ Forall2 (fun c item =>
           exists prefix : string,
             config (self s) !! "index_prefix" = Some (CStr prefix)
             /\ item = queued_item prefix (ic_suffix c) (ic_doc_type c)
                         (ic_body c) (ic_postprocessors c)) cs items
      /\ bulk_calls (env s') = bulk_calls (env s).
Proof.
  induction cs as [|c rest IH]; intros s s' H; cbn in H.
  - injection H as <-. exists []. rewrite app_nil_r. auto.
  - unfold bind in H.
    destruct (queue_index _ _ _ _ s) as [[[]|e] s1] eqn:Hq; [|discriminate].
    apply queue_index_returns in Hq as (prefix & Hp & Hqueue & Hcfg & Hb).
    apply IH in H as (items & Hitems & Hall & Hb').
    exists (queued_item prefix (ic_suffix c) (ic_doc_type c) (ic_body c)
              (ic_postprocessors c) :: items).
    split; [|split].
    + rewrite Hitems, Hqueue, <- app_assoc. reflexivity.
    + constructor; [eauto|]. rewrite Hcfg in Hall. exact Hall.
    + congruence.
Qed.

(** C1. After [N] calls of [queue_index] on an empty queue, one [_flush]
    gives the bulk write exactly [N] actions, the action of each record in
    the order of the calls, and the queue is empty after the swap and after
    the flush, whatever the bulk write, [open] and [write] do. *)
Theorem flush_after_enqueues (cs : list index_call) (s0 s1 : state) :
  queue (self s0) = [] ->
  queue_index_all cs s0 = (Return tt, s1) ->
  exists items : list queue_item,
    Forall2 (fun c item =>
      exists prefix : string,
        config (self s0) !! "index_prefix" = Some (CStr prefix)
        /\ item = queued_item prefix (ic_suffix c) (ic_doc_type c)
                    (ic_body c) (ic_postprocessors c)) cs items
    /\ length items = length cs
    /\ bulk_calls (env s1) = bulk_calls (env s0)
    /\ fst (swap_queue s1) = Return items
    /\ queue (self (snd (swap_queue s1))) = []
    /\ forall fe : flush_env,
         exists actions : list action,
           bulk_calls (env (snd (_flush fe s1)))
           = bulk_calls (env s1) ++ [actions]
           /\ length actions = length cs
           /\ Forall2 (fun item a =>
                forall s : state, fst (_run_postprocessors item s) = Return a)
                items actions
           /\ queue (self (snd (_flush fe s1))) = [].
Proof.
  intros Hempty Hcalls.
  apply queue_index_all_returns in Hcalls as (items & Hq & Hall & Hb).
  rewrite Hempty in Hq. cbn in Hq.
  assert (Hlen : length items = length cs)
    by (symmetry; eapply Forall2_length; exact Hall).
  exists items. repeat split; try assumption.
  - rewrite swap_queue_eq. cbn. now rewrite Hq.
  - intros fe. destruct (flush_frame fe s1) as (Hself & Hbulk).
    exists (batch_actions items). rewrite Hself, Hbulk, Hq.
    repeat split.
    + unfold batch_actions. now rewrite length_map.
    + unfold batch_actions. clear. induction items as [|item rest IH]; cbn.
      * constructor.
      * constructor; [|exact IH].
        intros s. now rewrite run_postprocessors_eq.
Qed.

(** The fallback file is written when nothing fails. *)
Lemma write_fallback_succeeds (fe : flush_env) (actions : list action)
    (path : string) (s : state) :
  config (self s) !! "fallback_log_file" = Some (CStr path) ->
  open_raises fe = None ->
  writes_succeed fe (length actions) = true ->
  write_fallback fe actions s
  = (Return tt,
     with_file path (default "" (files (env s) !! path)
                     +:+ concat_lines (json_lines_of actions)) s).
Proof.
  intros Hc Ho Hw. unfold write_fallback. unfold bind at 1.
  unfold config_get. unfold_M. cbn. rewrite Hc.
  unfold _open. rewrite Ho. cbn.
  erewrite write_lines_succeed.
  - unfold with_file, json_lines_of; cbn. now rewrite insert_insert_eq.
  - now rewrite length_map.
  - cbn. apply lookup_insert_eq.
Qed.

Lemma write_lines_fail (fe : flush_env) (path : string) (j : nat) (e : exn)
    (lines : list string) :
  write_raises fe = Some (j, e) ->
  forall (i : nat) (s : state),
    i <= j < i + length lines ->
    fst (write_lines fe path i lines s) = Raise e.
Proof.
  intros Hw. induction lines as [|line rest IH]; intros i s Hj; cbn in *.
  - lia.
  - unfold bind, file_write. rewrite Hw.
    destruct (Nat.eqb_spec i j) as [->|Hne]; [reflexivity|].
    cbn. apply IH. lia.
Qed.

Lemma write_fallback_io_error (fe : flush_env) (actions : list action)
    (path : string) (s : state) :
  config (self s) !! "fallback_log_file" = Some (CStr path) ->
  fallback_io_error fe (length actions) ->
  exists m, fst (write_fallback fe actions s) = Raise (IOError m).
Proof.
  intros Hc [[m Ho]|(Ho & j & m & Hw & Hj)]; exists m;
    unfold write_fallback; unfold bind at 1; unfold config_get; unfold_M;
    cbn; rewrite Hc; unfold _open; rewrite Ho; cbn; [reflexivity|].
  eapply write_lines_fail; [exact Hw|]. rewrite length_map. lia.
Qed.

(** C2, as the code has it. When the bulk write raises a transport error
    and the fallback file can be written, each action of the batch, the
    whole dict of operation, index, type and postprocessed body, is appended
    to the fallback file as one line, its JSON text and a newline, in the
    order of the batch; and the files are touched by a flush only when the
    bulk write raised a transport error. *)
Theorem flush_writes_fallback_file (fe : flush_env) (s : state) (e : exn)
    (path : string) :
  bulk_raises fe = Some e ->
  is_TransportError e = true ->
  config (self s) !! "fallback_log_file" = Some (CStr path) ->
  open_raises fe = None ->
  writes_succeed fe (length (queue (self s))) = true ->
  let actions := batch_actions (queue (self s)) in
  (fst (_flush fe s) = Return tt
   /\ bulk_calls (env (snd (_flush fe s))) = bulk_calls (env s) ++ [actions]
   /\ files (env (snd (_flush fe s)))
      = <[path := default "" (files (env s) !! path)
                  +:+ concat_lines
                        (map (fun a => dumps (action_doc a) +:+ newline)
                           actions)]> (files (env s)))
  /\ (forall (fe' : flush_env) (s' : state),
        files (env (snd (_flush fe' s'))) = files (env s')
        \/ exists e', bulk_raises fe' = Some e' /\ is_TransportError e' = true).
Proof.
  intros Hb Ht Hc Ho Hw actions. split.
  - destruct (flush_frame fe s) as (_ & Hbulk).
    split; [|split; [exact Hbulk|]].
    + rewrite flush_eq_batch, flush_batch_eq, Hb, Ht.
      rewrite (write_fallback_succeeds _ _ path); try assumption.
      * reflexivity.
      * unfold batch_actions. now rewrite length_map.
    + rewrite flush_eq_batch, flush_batch_eq, Hb, Ht.
      rewrite (write_fallback_succeeds _ _ path); try assumption.
      * reflexivity.
      * unfold batch_actions. now rewrite length_map.
  - intros fe' s'. rewrite flush_eq_batch, flush_batch_eq.
    destruct (bulk_raises fe') as [e'|]; [|left; reflexivity].
    destruct (is_TransportError e') eqn:Ht'; [right; eauto|left; reflexivity].
Qed.

(** *** The thread *)

Lemma flush_guarded_eq (fe : flush_env) (s : state) :
  flush_guarded fe s
  = match _flush fe s with
    | (Return _, s1) => (Return tt, s1)
    | (Raise e, s1) =>
        (Return tt,
         {| self := set_exceptions (exceptions (self s1) ++ [e]) (self s1);
            env := add_log (Error UnexpectedException) (env s1) |})
    end.
Proof.
  unfold flush_guarded, try_except.
  destruct (_flush fe s) as [[[]|e] s1]; reflexivity.
Qed.

Lemma flush_guarded_frame (fe : flush_env) (s : state) :
  fst (flush_guarded fe s) = Return tt
  /\ config (self (snd (flush_guarded fe s))) = config (self s)
  /\ queue (self (snd (flush_guarded fe s))) = []
  /\ running (self (snd (flush_guarded fe s))) = running (self s)
  /\ _flush_event (self (snd (flush_guarded fe s))) = _flush_event (self s)
  /\ bulk_calls (env (snd (flush_guarded fe s)))
     = bulk_calls (env s) ++ [batch_actions (queue (self s))].
Proof.
  rewrite flush_guarded_eq. destruct (flush_frame fe s) as (Hself & Hbulk).
  destruct (_flush fe s) as [[[]|e] s1]; cbn [fst snd] in *;
    cbn; rewrite ?Hself, ?Hbulk; cbn; auto 10.
Qed.

Lemma queue_index_frame (suffix doc_type : string) (body : pyval)
    (pps : option (list postprocessor)) (s : state) :
  let s' := snd (queue_index suffix doc_type body pps s) in
  config (self s') = config (self s)
  /\ bulk_calls (env s') = bulk_calls (env s)
  /\ (queue (self s) <> [] -> queue (self s') <> [])
  /\ running (self s') = running (self s).
Proof.
  destruct (config (self s) !! "index_prefix") as [[| |prefix]|] eqn:Hp.
  1,2,4: unfold queue_index; unfold_M; cbn; rewrite Hp; cbn; auto.
  cbv zeta. rewrite (queue_index_eq _ _ _ _ prefix) by exact Hp.
  assert (Hne : forall (q : list queue_item) (item : queue_item), q ++ [item] <> [])
    by (intros [|x q] item; discriminate).
  destruct (config (self s) !! "max_queue_length") as [v|]; [|cbn; auto].
  destruct (is_not_None v && int_ge _ v); cbn; auto.
Qed.

(** A call from the main thread leaves the thread where it is. *)
Lemma step_other_thread (ev : event) (sys : system) :
  (forall o, ev <> Thread o) -> at_pc (step ev sys) = at_pc sys.
Proof. intros H. destruct ev; cbn; [now destruct (H o)|reflexivity..]. Qed.

Lemma step_exited (ev : event) (sys : system) (r : exit) :
  at_pc sys = Exited r -> step ev sys = sys \/ at_pc (step ev sys) = Exited r.
Proof.
  intros H. destruct ev; cbn; auto.
  left. unfold thread_step. now rewrite H.
Qed.

Lemma step_config (ev : event) (sys : system) :
  config (self (st (step ev sys))) = config (self (st sys)).
Proof.
  destruct ev as [o|suffix doc_type body pps| |b]; cbn; try reflexivity.
  - unfold thread_step. destruct (at_pc sys); cbn; try reflexivity.
    + destruct (running _ || _); reflexivity.
    + destruct (flush_guarded_frame (flush_answer o) (st sys))
        as (Hr & Hc & _).
      destruct (flush_guarded _ _) as [[[]|e] s1]; cbn in *; exact Hc.
    + unfold clear_and_interval. unfold_M. cbn.
      destruct (config (self (st sys)) !! "interval"); reflexivity.
    + destruct (wait_answers o); cbn; try reflexivity;
        destruct (_flush_event _); reflexivity.
  - apply queue_index_frame.
Qed.

Lemma exec_app (evs1 evs2 : list event) (sys : system) :
  exec (evs1 ++ evs2) sys = exec evs2 (exec evs1 sys).
Proof. unfold exec. apply fold_left_app. Qed.

Lemma exec_config (evs : list event) :
  forall sys : system,
    config (self (st (exec evs sys))) = config (self (st sys)).
Proof.
  induction evs as [|ev evs IH]; intros sys; cbn; [reflexivity|].
  unfold exec in IH. rewrite IH. apply step_config.
Qed.

(** The step on which the thread leaves [run]. *)
Lemma thread_step_exits (o : oracle) (sys : system) (r : exit) :
  is_exited (at_pc sys) = false ->
  at_pc (thread_step o sys) = Exited r ->
  (r = LoopEnd /\ at_pc sys = AtLoopTest
   /\ running (self (st sys)) = false /\ queue (self (st sys)) = [])
  \/ (r = WaitTypeError /\ at_pc sys = AtWait
      /\ wait_answers o = WaitRaisesTypeError)
  \/ (r = Uncaught (KeyError "interval") /\ at_pc sys = AtClear
      /\ config (self (st sys)) !! "interval" = None).
Proof.
  intros Hrun. unfold thread_step.
  destruct (at_pc sys) as [| | | |r0] eqn:Hpc; cbn.
  - destruct (running (self (st sys))) eqn:Hr; cbn; [discriminate|].
    destruct (queue (self (st sys))) as [|x q] eqn:Hq; cbn; [|discriminate].
    intros [= <-]. left. auto.
  - destruct (flush_guarded_frame (flush_answer o) (st sys)) as (Hr & _).
    destruct (flush_guarded _ _) as [[[]|e] s1]; cbn in *; discriminate.
  - unfold clear_and_interval. unfold_M. cbn.
    destruct (config (self (st sys)) !! "interval") eqn:Hi; cbn;
      [discriminate|].
    intros [= <-]. right; right. auto.
  - destruct (wait_answers o) eqn:Hw; cbn.
    + destruct (_flush_event _); cbn; [discriminate|]. now rewrite Hpc.
    + destruct (_flush_event _); cbn; discriminate.
    + intros [= <-]. right; left. auto.
  - discriminate Hrun.
Qed.

(** An execution in which the thread leaves [run]: the step on which it
    does. *)
Lemma exec_exit_step (evs : list event) (sys : system) (r : exit) :
  is_exited (at_pc sys) = false ->
  at_pc (exec evs sys) = Exited r ->
  exists (evs1 : list event) (o : oracle) (evs2 : list event),
    evs = evs1 ++ Thread o :: evs2
    /\ is_exited (at_pc (exec evs1 sys)) = false
    /\ at_pc (thread_step o (exec evs1 sys)) = Exited r.
Proof.
  intros Hstart. revert r.
  induction evs as [|ev evs IH] using rev_ind; intros r Hexit.
  - cbn in Hexit. rewrite Hexit in Hstart. discriminate Hstart.
  - rewrite exec_app in Hexit. cbn in Hexit.
    destruct (at_pc (exec evs sys)) as [| | | |r0] eqn:Hpc.
    5: { assert (Hr : r0 = r).
         { destruct (step_exited ev _ r0 Hpc) as [Heq|Heq];
             rewrite Heq in Hexit; congruence. }
         subst r0.
         destruct (IH r eq_refl) as (evs1 & o & evs2 & -> & H1 & H2).
         exists evs1, o, (evs2 ++ [ev]). rewrite <- app_assoc. auto. }
    all: destruct ev as [o| | |];
      try (rewrite step_other_thread in Hexit by discriminate; congruence);
      exists evs, o, []; (split; [reflexivity|]);
      (split; [now rewrite Hpc|exact Hexit]).
Qed.

Lemma thread_step_wait_returns (o : oracle) (sys : system) :
  at_pc sys = AtWait ->
  wait_answers o = TimerExpires
  \/ (_flush_event (self (st sys)) = true
      /\ wait_answers o <> WaitRaisesTypeError) ->
  at_pc (thread_step o sys) = AtLoopTest
  /\ self (st (thread_step o sys)) = self (st sys)
  /\ bulk_calls (env (st (thread_step o sys))) = bulk_calls (env (st sys))
  /\ files (env (st (thread_step o sys))) = files (env (st sys)).
Proof.
  intros Hpc Hw. unfold thread_step. rewrite Hpc.
  destruct Hw as [->|(Hev & Hw)].
  - destruct (_flush_event _); cbn; auto.
  - rewrite Hev. destruct (wait_answers o); cbn; auto. now destruct Hw.
Qed.

Lemma thread_step_test_passes (o : oracle) (sys : system) :
  at_pc sys = AtLoopTest ->
  running (self (st sys)) = true \/ queue (self (st sys)) <> [] ->
  thread_step o sys = {| st := st sys; at_pc := AtFlush |}.
Proof.
  intros Hpc Hr. unfold thread_step. rewrite Hpc.
  destruct Hr as [->|Hq]; [reflexivity|].
  destruct (queue (self (st sys))) as [|x q]; [now destruct Hq|].
  cbn. now rewrite orb_true_r.
Qed.

Lemma thread_step_flush (o : oracle) (sys : system) :
  at_pc sys = AtFlush ->
  thread_step o sys
  = {| st := snd (flush_guarded (flush_answer o) (st sys));
       at_pc := AtClear |}.
Proof.
  intros Hpc. unfold thread_step. rewrite Hpc.
  destruct (flush_guarded_frame (flush_answer o) (st sys)) as (Hret & _).
  destruct (flush_guarded _ _) as [[[]|e] t]; cbn in *;
    [reflexivity|discriminate].
Qed.

Lemma thread_step_clear (o : oracle) (sys : system) (v : cval) :
  at_pc sys = AtClear ->
  config (self (st sys)) !! "interval" = Some v ->
  thread_step o sys
  = {| st := {| self := set_flush_event false (self (st sys));
                env := env (st sys) |};
       at_pc := AtWait |}.
Proof.
  intros Hpc Hi. unfold thread_step. rewrite Hpc.
  unfold clear_and_interval. unfold_M. cbn. now rewrite Hi.
Qed.

(** From the wait, when [Event.wait] returns and the test of the [while]
    passes: the queue goes to the bulk write. *)
Lemma wake_and_flush (sys : system) (o1 o2 o3 : oracle) :
  at_pc sys = AtWait ->
  running (self (st sys)) = true \/ queue (self (st sys)) <> [] ->
  wait_answers o1 = TimerExpires
  \/ (_flush_event (self (st sys)) = true
      /\ wait_answers o1 <> WaitRaisesTypeError) ->
  let sys' := exec [Thread o1; Thread o2; Thread o3] sys in
  at_pc sys' = AtClear
  /\ bulk_calls (env (st sys'))
     = bulk_calls (env (st sys)) ++ [batch_actions (queue (self (st sys)))]
  /\ queue (self (st sys')) = []
  /\ running (self (st sys')) = running (self (st sys))
  /\ config (self (st sys')) = config (self (st sys)).
Proof.
  intros Hpc Hr Hw sys'. subst sys'. unfold exec. cbn [fold_left step].
  destruct (thread_step_wait_returns o1 sys Hpc Hw) as (Hpc1 & Hself & Hb & _).
  rewrite (thread_step_test_passes o2 _ Hpc1) by (now rewrite Hself).
  rewrite (thread_step_flush o3) by reflexivity. cbn [st at_pc].
  destruct (flush_guarded_frame (flush_answer o3) (st (thread_step o1 sys)))
    as (_ & Hc & Hq & Hrun & _ & Hbulk).
  rewrite Hbulk, Hq, Hrun, Hc, Hself, Hb. auto.
Qed.

(** C6. When the bulk write raises a transport error and the fallback write
    fails with an I/O error, [_flush] returns; the last record of the log
    is the error that counts the lost logs, and the count is the size of the
    batch; the bulk write was called once and the batch is in the queue no
    more. The thread goes on to the [finally] clause with no exception
    recorded, the object in the state a successful flush would have left it
    in; and when the thread has waited and a document has been queued, its
    next flush gives the bulk write what is in the queue. *)
Theorem flush_fallback_io_error (fe : flush_env) (s : state) (e : exn)
    (path : string) :
  bulk_raises fe = Some e ->
  is_TransportError e = true ->
  config (self s) !! "fallback_log_file" = Some (CStr path) ->
  fallback_io_error fe (length (queue (self s))) ->
  let s' := snd (_flush fe s) in
  fst (_flush fe s) = Return tt
  /\ log (env s')
     = log (env s) ++ batch_log (queue (self s))
       ++ [Error ErrorInFlushing;
           Error (ErrorInFallback (length (queue (self s))))]
  /\ bulk_calls (env s')
     = bulk_calls (env s) ++ [batch_actions (queue (self s))]
  /\ self s' = set_queue [] (self s)
  /\ (forall o : oracle,
        flush_answer o = fe ->
        thread_step o {| st := s; at_pc := AtFlush |}
        = {| st := s'; at_pc := AtClear |})
  /\ (forall fe_ok : flush_env,
        bulk_raises fe_ok = None -> self s' = self (snd (_flush fe_ok s)))
  /\ (forall (o o' o1 o2 o3 : oracle) (v : cval) (suffix doc_type : string)
         (body : pyval) (pps : option (list postprocessor)),
        flush_answer o = fe ->
        config (self s) !! "interval" = Some v ->
        running (self s) = true ->
        wait_answers o1 = TimerExpires ->
        let waiting :=
          exec [Thread o; Thread o'; Call_queue_index suffix doc_type body pps]
            {| st := s; at_pc := AtFlush |} in
        let next := exec [Thread o1; Thread o2; Thread o3] waiting in
        at_pc waiting = AtWait
        /\ queue (self (st waiting))
           = queue (self (snd (queue_index suffix doc_type body pps
                                 {| self := set_flush_event false (self s');
                                    env := env s' |})))
        /\ at_pc next = AtClear
        /\ bulk_calls (env (st next))
           = bulk_calls (env s') ++ [batch_actions (queue (self (st waiting)))]).
Proof.
  intros Hb Ht Hc Hio s'.
  destruct (flush_frame fe s) as (Hself & Hbulk).
  assert (Hflush : _flush fe s = (Return tt, s')
                   /\ log (env s')
                      = log (env s) ++ batch_log (queue (self s))
                        ++ [Error ErrorInFlushing;
                            Error (ErrorInFallback (length (queue (self s))))]).
  { subst s'. rewrite flush_eq_batch, flush_batch_eq, Hb, Ht.
    match goal with |- context [write_fallback fe ?a ?t] =>
      destruct (write_fallback_io_error fe a path t) as [m Hm];
        [exact Hc
        |unfold batch_actions; rewrite length_map; exact Hio
        |pose proof (write_fallback_frame fe a t) as (_ & Hlog & _);
         destruct (write_fallback fe a t) as [r s4]] end.
    cbn [fst snd] in *. subst r. cbn [is_IOError].
    split; [reflexivity|]. cbn. rewrite Hlog. cbn.
    now rewrite <- !app_assoc. }
  destruct Hflush as (Hflush & Hlog).
  assert (Hstep : forall o : oracle,
            flush_answer o = fe ->
            thread_step o {| st := s; at_pc := AtFlush |}
            = {| st := s'; at_pc := AtClear |}).
  { intros o <-. unfold thread_step, flush_guarded, try_except. cbn [at_pc st].
    now rewrite Hflush. }
  split; [now rewrite Hflush|]. split; [exact Hlog|].
  split; [exact Hbulk|]. split; [exact Hself|]. split; [exact Hstep|]. split.
  - intros fe_ok _. destruct (flush_frame fe_ok s) as (Hself' & _).
    subst s'. now rewrite Hself, Hself'.
  - intros o o' o1 o2 o3 v suffix doc_type body pps Ho Hi Hr Hw waiting next.
    assert (Hwaiting : waiting
              = {| st := snd (queue_index suffix doc_type body pps
                                {| self := set_flush_event false (self s');
                                   env := env s' |});
                   at_pc := AtWait |}).
    { subst waiting. unfold exec. cbn [fold_left step]. rewrite (Hstep o Ho).
      rewrite (thread_step_clear o' _ v); [reflexivity..|].
      cbn [st]. fold s' in Hself. rewrite Hself. exact Hi. }
    clearbody waiting. subst waiting.
    match goal with |- context [queue_index suffix doc_type body pps ?t] =>
      destruct (queue_index_frame suffix doc_type body pps t)
        as (_ & Hbq & _ & Hrq) end.
    destruct (wake_and_flush
                {| st := snd (queue_index suffix doc_type body pps
                                {| self := set_flush_event false (self s');
                                   env := env s' |});
                   at_pc := AtWait |} o1 o2 o3)
      as (Hpc & Hbn & _); [reflexivity| |left; exact Hw|].
    + left. cbn [st]. rewrite Hrq. cbn. fold s' in Hself.
      rewrite Hself. exact Hr.
    + fold next in Hpc, Hbn. cbn [st] in Hbn. rewrite Hbq in Hbn.
      cbn [env] in Hbn. auto.
Qed.

(** C7, as the code has it. With [interval] in the configuration, the
    thread leaves [run] on two steps only: on the test of the [while], when
    [running] is false and the queue is empty, and on the [return] of the
    clause [except TypeError] around [Event.wait]. An exception that
    [_flush] raises does not end the loop: the step of the flush leads to
    the [finally] clause, the exception appended to [exceptions] and the
    error logged, and from there the thread goes to its wait. *)
Theorem run_exits_and_catches (sys : system) (v : cval) :
  config (self (st sys)) !! "interval" = Some v ->
  is_exited (at_pc sys) = false ->
  (forall (evs : list event) (r : exit),
     at_pc (exec evs sys) = Exited r ->
     exists (evs1 : list event) (o : oracle) (evs2 : list event),
       evs = evs1 ++ Thread o :: evs2
       /\ ((r = LoopEnd /\ at_pc (exec evs1 sys) = AtLoopTest
            /\ running (self (st (exec evs1 sys))) = false
            /\ queue (self (st (exec evs1 sys))) = [])
           \/ (r = WaitTypeError /\ at_pc (exec evs1 sys) = AtWait
               /\ wait_answers o = WaitRaisesTypeError)))
  /\ (forall (evs : list event) (o o' : oracle),
        at_pc (exec evs sys) = AtFlush ->
        let before := exec evs sys in
        let after := step (Thread o) before in
        at_pc after = AtClear
        /\ (forall (e : exn) (s1 : state),
              _flush (flush_answer o) (st before) = (Raise e, s1) ->
              exceptions (self (st after))
              = exceptions (self (st before)) ++ [e]
              /\ log (env (st after))
                 = log (env s1) ++ [Error UnexpectedException])
        /\ at_pc (step (Thread o') after) = AtWait).
Proof.
  intros Hi Hstart. split.
  - intros evs r Hexit.
    destruct (exec_exit_step evs sys r Hstart Hexit)
      as (evs1 & o & evs2 & -> & Hrun & Hstep).
    exists evs1, o, evs2. split; [reflexivity|].
    destruct (thread_step_exits o _ r Hrun Hstep) as [H|[H|(_ & _ & H)]];
      [left; exact H|right; exact H|].
    rewrite exec_config, Hi in H. discriminate H.
  - intros evs o o' Hpc before after.
    assert (Hafter : after
                     = {| st := snd (flush_guarded (flush_answer o) (st before));
                          at_pc := AtClear |}).
    { subst after. cbn. unfold thread_step. subst before. rewrite Hpc.
      destruct (flush_guarded_frame (flush_answer o) (st (exec evs sys)))
        as (Hr & _).
      destruct (flush_guarded _ _) as [[[]|e] s1]; cbn in *;
        [reflexivity|discriminate]. }
    split; [now rewrite Hafter|]. split.
    + intros e s1 Hflush. rewrite Hafter. cbn [st].
      rewrite flush_guarded_eq, Hflush. cbn.
      destruct (flush_frame (flush_answer o) (st before)) as (Hself & _).
      rewrite Hflush in Hself. cbn in Hself. rewrite Hself. auto.
    + rewrite Hafter. cbn. unfold thread_step. cbn [at_pc st].
      unfold clear_and_interval. unfold_M. cbn.
      destruct (flush_guarded_frame (flush_answer o) (st before))
        as (_ & Hc & _).
      rewrite Hc. subst before. rewrite exec_config, Hi. reflexivity.
Qed.

Lemma thread_step_flushes (o : oracle) (sys : system) :
  flushes (thread_step o sys)
  = match at_pc sys with
    | AtFlush => S (flushes sys)
    | _ => flushes sys
    end.
Proof.
  unfold thread_step, flushes.
  destruct (at_pc sys); cbn [st at_pc]; try reflexivity.
  - destruct (running _ || _); reflexivity.
  - destruct (flush_guarded_frame (flush_answer o) (st sys))
      as (_ & _ & _ & _ & _ & Hb).
    destruct (flush_guarded _ _) as [[[]|e] s1]; cbn in *;
      rewrite Hb, length_app; cbn; lia.
  - unfold clear_and_interval. unfold_M. cbn.
    destruct (config (self (st sys)) !! "interval"); reflexivity.
  - destruct (wait_answers o); cbn; try reflexivity;
      destruct (_flush_event _); reflexivity.
Qed.

Lemma step_pending_or_flushed (n : nat) (ev : event) (sys : system) :
  pending_or_flushed n sys -> pending_or_flushed n (step ev sys).
Proof.
  unfold pending_or_flushed.
  destruct ev as [o|suffix doc_type body pps| |b]; cbn [step].
  - rewrite thread_step_flushes.
    intros [Hlt|(Hle & Hq & Hpc)].
    { left. destruct (at_pc sys); lia. }
    unfold thread_step.
    destruct (at_pc sys) as [| | | |r] eqn:Hat; cbn [st at_pc].
    + right. destruct (queue (self (st sys))) as [|x q] eqn:Hq';
        [now destruct Hq|].
      cbn [length Nat.ltb Nat.leb]. rewrite orb_true_r. cbn.
      rewrite Hq'. repeat split; [lia|discriminate..].
    + left. lia.
    + right. unfold clear_and_interval. unfold_M. cbn.
      destruct (config (self (st sys)) !! "interval"); cbn;
        repeat split; [lia|exact Hq|discriminate|lia|exact Hq|discriminate].
    + right. destruct (wait_answers o); cbn; try destruct (_flush_event _);
        cbn; rewrite ?Hat; repeat split; try lia; try exact Hq;
        discriminate.
    + right. rewrite Hat. auto.
  - destruct (queue_index_frame suffix doc_type body pps (st sys))
      as (_ & Hb & Hq & _).
    unfold flushes. cbn [st at_pc]. rewrite Hb.
    intros [Hlt|(Hle & Hne & Hpc)]; [left; exact Hlt|right; auto].
  - unfold flushes. cbn. tauto.
  - unfold flushes. cbn. tauto.
Qed.

Lemma exec_pending_or_flushed (n : nat) (evs : list event) :
  forall sys : system,
    pending_or_flushed n sys -> pending_or_flushed n (exec evs sys).
Proof.
  induction evs as [|ev evs IH]; intros sys H; cbn; [exact H|].
  apply IH, step_pending_or_flushed, H.
Qed.

(** C9, as the code has it. With records in the queue, the thread does not
    leave the loop by its test before one more flush has been made, whether
    [running] is false or not: when its wait returns, the test passes and
    the flush gives the records to the bulk write. When [running] is false,
    the queue empty and the flush event not set, the thread, at its wait,
    waits on; it leaves the loop when the timer expires or when the event
    is set. And the test of the [while] ends the loop only when it finds
    [running] false and the queue empty. (The other exit, the [return] on
    [TypeError] from [Event.wait], is not bound by this.) *)
Theorem run_shutdown (sys : system) :
  is_exited (at_pc sys) = false ->
  (forall evs : list event,
     queue (self (st sys)) <> [] ->
     at_pc (exec evs sys) = Exited LoopEnd ->
     flushes sys < flushes (exec evs sys))
  /\ (forall o1 o2 o3 : oracle,
        at_pc sys = AtWait ->
        queue (self (st sys)) <> [] ->
        wait_answers o1 = TimerExpires
        \/ (_flush_event (self (st sys)) = true
            /\ wait_answers o1 <> WaitRaisesTypeError) ->
        at_pc (exec [Thread o1; Thread o2; Thread o3] sys) = AtClear
        /\ bulk_calls (env (st (exec [Thread o1; Thread o2; Thread o3] sys)))
           = bulk_calls (env (st sys))
             ++ [batch_actions (queue (self (st sys)))]
        /\ queue (self (st (exec [Thread o1; Thread o2; Thread o3] sys))) = [])
  /\ (forall o1 o2 : oracle,
        at_pc sys = AtWait ->
        running (self (st sys)) = false ->
        queue (self (st sys)) = [] ->
        _flush_event (self (st sys)) = false ->
        (wait_answers o1 = StillWaiting -> step (Thread o1) sys = sys)
        /\ (wait_answers o1 = TimerExpires ->
            at_pc (exec [Thread o1; Thread o2] sys) = Exited LoopEnd
            /\ flushes (exec [Thread o1; Thread o2] sys) = flushes sys)
        /\ (wait_answers o1 <> WaitRaisesTypeError ->
            at_pc (exec [Call_trigger_flush; Thread o1; Thread o2] sys)
            = Exited LoopEnd
            /\ flushes (exec [Call_trigger_flush; Thread o1; Thread o2] sys)
               = flushes sys))
  /\ (forall evs : list event,
        at_pc (exec evs sys) = Exited LoopEnd ->
        exists (evs1 : list event) (o : oracle) (evs2 : list event),
          evs = evs1 ++ Thread o :: evs2
          /\ at_pc (exec evs1 sys) = AtLoopTest
          /\ running (self (st (exec evs1 sys))) = false
          /\ queue (self (st (exec evs1 sys))) = []).
Proof.
  intros Hstart. split; [|split; [|split]].
  - intros evs Hq Hexit.
    assert (H : pending_or_flushed (flushes sys) (exec evs sys)).
    { apply exec_pending_or_flushed. right. repeat split; [lia|exact Hq|].
      intros Hpc. rewrite Hpc in Hstart. discriminate Hstart. }
    destruct H as [H|(_ & _ & H)]; [exact H|now destruct H].
  - intros o1 o2 o3 Hpc Hq Hw.
    destruct (wake_and_flush sys o1 o2 o3 Hpc (or_intror Hq) Hw)
      as (H1 & H2 & H3 & _).
    auto.
  - intros o1 o2 Hpc Hr Hq Hev. split; [|split].
    + intros Hw. cbn. unfold thread_step. now rewrite Hpc, Hw, Hev.
    + intros Hw.
      assert (H1 : thread_step o1 sys
                   = {| st := snd (logger_debug FlushingAfterTimeout (st sys));
                        at_pc := AtLoopTest |})
        by (unfold thread_step; now rewrite Hpc, Hw, Hev).
      cbn [exec fold_left step]. rewrite H1.
      unfold thread_step, flushes. cbn. now rewrite Hr, Hq.
    + intros Hw.
      assert (H1 : step (Thread o1) (step Call_trigger_flush sys)
                   = {| st := snd (logger_debug FlushingOnTrigger
                                     (snd (trigger_flush (st sys))));
                        at_pc := AtLoopTest |}).
      { cbn [step]. unfold thread_step. cbn [at_pc st]. rewrite Hpc.
        destruct (wait_answers o1); [reflexivity..|now destruct Hw]. }
      unfold exec. cbn [fold_left]. rewrite H1. cbn [step].
      unfold thread_step, flushes. cbn. now rewrite Hr, Hq.
  - intros evs Hexit.
    destruct (exec_exit_step evs sys LoopEnd Hstart Hexit)
      as (evs1 & o & evs2 & -> & Hrun & Hstep).
    exists evs1, o, evs2. split; [reflexivity|].
    destruct (thread_step_exits o _ LoopEnd Hrun Hstep)
      as [(_ & H)|[(H & _)|(H & _)]]; [exact H|discriminate..].
Qed.

(** *** The log does not steer the methods *)

Create HintDb respects.

Lemma respects_ret {A} (a : A) : respects (ret a).
Proof. intros s1 s2 H. cbn. auto. Qed.

Lemma respects_raise {A} (e : exn) : respects (@raise A e).
Proof. intros s1 s2 H. cbn. auto. Qed.

Lemma respects_bind {A B} (m : M A) (k : A -> M B) :
  respects m -> (forall a, respects (k a)) -> respects (bind m k).
Proof.
  intros Hm Hk s1 s2 H. unfold bind.
  destruct (Hm s1 s2 H) as (Hr & Hs).
  destruct (m s1) as [[a1|e1] t1], (m s2) as [[a2|e2] t2]; cbn in *;
    try discriminate; try injection Hr as <-; auto.
  apply Hk, Hs.
Qed.

Lemma respects_try_except {A} (m : M A) (catches : exn -> bool)
    (h : exn -> M A) :
  respects m -> (forall e, respects (h e)) -> respects (try_except m catches h).
Proof.
  intros Hm Hh s1 s2 H. unfold try_except.
  destruct (Hm s1 s2 H) as (Hr & Hs).
  destruct (m s1) as [[a1|e1] t1], (m s2) as [[a2|e2] t2]; cbn in *;
    try discriminate; try injection Hr as <-; auto.
  destruct (catches e1); cbn; auto. apply Hh, Hs.
Qed.

Lemma respects_try_except_else {A} (m : M unit) (catches : exn -> bool)
    (h : exn -> M A) (els : M A) :
  respects m -> (forall e, respects (h e)) -> respects els ->
  respects (try_except_else m catches h els).
Proof.
  intros Hm Hh He s1 s2 H. unfold try_except_else.
  destruct (Hm s1 s2 H) as (Hr & Hs).
  destruct (m s1) as [[[]|e1] t1], (m s2) as [[[]|e2] t2]; cbn in *;
    try discriminate.
  - apply He, Hs.
  - injection Hr as <-. destruct (catches e1); cbn; auto. apply Hh, Hs.
Qed.

Lemma respects_get_self : respects get_self.
Proof. intros s1 s2 H. cbn. split; [f_equal; apply H|exact H]. Qed.

Lemma respects_modify_self (f : ActionQueue -> ActionQueue) :
  respects (modify_self f).
Proof.
  intros s1 s2 (H1 & H2 & H3). unfold same_but_log. cbn. rewrite H1. auto.
Qed.

Lemma respects_modify_env (f : world -> world) :
  (forall w1 w2 : world,
     bulk_calls w1 = bulk_calls w2 -> files w1 = files w2 ->
     bulk_calls (f w1) = bulk_calls (f w2) /\ files (f w1) = files (f w2)) ->
  respects (modify_env f).
Proof.
  intros Hf s1 s2 (H1 & H2 & H3). unfold same_but_log. cbn.
  destruct (Hf _ _ H2 H3). auto.
Qed.

Lemma respects_logger_debug (m : message) : respects (logger_debug m).
Proof. apply respects_modify_env. cbn. auto. Qed.

Lemma respects_logger_error (m : message) : respects (logger_error m).
Proof. apply respects_modify_env. cbn. auto. Qed.

Lemma respects_call {A} (r : outcome A) : respects (call r).
Proof. destruct r; [apply respects_ret|apply respects_raise]. Qed.

#[local] Hint Resolve respects_ret respects_raise respects_call
  respects_get_self respects_modify_self respects_logger_debug
  respects_logger_error : respects.

(** The structure of a method is followed down to the primitives. *)
Ltac respects_steps :=
  repeat match goal with
    | |- respects (bind _ _) => apply respects_bind; [|intros ?]
    | |- respects (try_except _ _ _) => apply respects_try_except; [|intros ?]
    | |- respects (try_except_else _ _ _ _) =>
        apply respects_try_except_else; [|intros ?|]
    | |- respects (match ?x with _ => _ end) => destruct x
    | |- _ => solve [auto with respects]
    end.

Lemma respects_config_get (key : string) : respects (config_get key).
Proof. unfold config_get. respects_steps. Qed.

Lemma respects_trigger_flush : respects trigger_flush.
Proof. unfold trigger_flush. respects_steps. Qed.

#[local] Hint Resolve respects_config_get respects_trigger_flush : respects.

Lemma respects_queue_index (suffix doc_type : string) (body : pyval)
    (pps : option (list postprocessor)) :
  respects (queue_index suffix doc_type body pps).
Proof. unfold queue_index, str_add. cbv zeta. respects_steps. Qed.

Lemma respects_run_postprocessors (item : queue_item) :
  respects (_run_postprocessors item).
Proof.
  destruct item as [a pps]. cbn. revert a.
  induction pps as [|p rest IH]; intros a; cbn; respects_steps.
Qed.

#[local] Hint Resolve respects_run_postprocessors : respects.

Lemma respects_map_M {A B} (f : A -> M B) (l : list A) :
  (forall x, respects (f x)) -> respects (map_M f l).
Proof. intros Hf. induction l as [|x rest IH]; cbn; respects_steps. Qed.

Lemma respects_bulk (fe : flush_env) (actions : list action) :
  respects (_bulk fe actions).
Proof.
  unfold _bulk. respects_steps.
  apply respects_modify_env. cbn. intros w1 w2 -> ->. auto.
Qed.

Lemma respects_open (fe : flush_env) (name : cval) : respects (_open fe name).
Proof.
  unfold _open. respects_steps.
  apply respects_modify_env. cbn. intros w1 w2 -> ->. auto.
Qed.

Lemma respects_file_write (fe : flush_env) (log_file : string) (i : nat)
    (line : string) :
  respects (file_write fe log_file i line).
Proof.
  unfold file_write. respects_steps;
    apply respects_modify_env; cbn; intros w1 w2 -> ->; auto.
Qed.

Lemma respects_write_lines (fe : flush_env) (log_file : string)
    (lines : list string) :
  forall i : nat, respects (write_lines fe log_file i lines).
Proof.
  induction lines as [|line rest IH]; intros i; cbn; respects_steps.
  apply respects_file_write.
Qed.

#[local] Hint Resolve respects_map_M respects_bulk respects_open
  respects_write_lines : respects.

Lemma respects_flush (fe : flush_env) : respects (_flush fe).
Proof.
  unfold _flush, swap_queue, flush_batch, write_fallback. cbv zeta.
  respects_steps.
Qed.

Lemma respects_flush_guarded (fe : flush_env) : respects (flush_guarded fe).
Proof. unfold flush_guarded. respects_steps. apply respects_flush. Qed.

Lemma respects_clear_and_interval : respects clear_and_interval.
Proof. unfold clear_and_interval. respects_steps. Qed.

Lemma same_but_log_refl (s : state) : same_but_log s s.
Proof. unfold same_but_log. auto. Qed.

Lemma step_same_but_log (ev : event) (sys1 sys2 : system) :
  same_system_but_log sys1 sys2 ->
  same_system_but_log (step ev sys1) (step ev sys2).
Proof.
  intros (Hs & Hpc). unfold same_system_but_log.
  destruct ev as [o|suffix doc_type body pps| |b]; cbn [step at_pc st].
  - unfold thread_step. rewrite <- Hpc.
    assert (Hself : self (st sys1) = self (st sys2)) by apply Hs.
    destruct (at_pc sys1) eqn:Hat; cbn [st at_pc].
    + rewrite <- Hself. destruct (running _ || _); cbn; auto.
    + destruct (respects_flush_guarded (flush_answer o) _ _ Hs) as (Hr & Ht).
      destruct (flush_guarded _ (st sys1)) as [[[]|e1] t1],
        (flush_guarded _ (st sys2)) as [[[]|e2] t2]; cbn in *;
        try discriminate; try injection Hr as <-; auto.
    + destruct (respects_clear_and_interval _ _ Hs) as (Hr & Ht).
      destruct (clear_and_interval (st sys1)) as [[v1|e1] t1],
        (clear_and_interval (st sys2)) as [[v2|e2] t2]; cbn in *;
        try discriminate; try injection Hr as <-; auto.
    + rewrite <- Hself.
      destruct (wait_answers o); try destruct (_flush_event _);
        cbn [st at_pc]; (split; [|congruence]); try exact Hs;
        apply respects_logger_debug, Hs.
    + split; [exact Hs|congruence].
  - split; [|exact Hpc]. apply respects_queue_index, Hs.
  - split; [|exact Hpc]. apply respects_trigger_flush, Hs.
  - split; [|exact Hpc]. apply (respects_modify_self _ _ _ Hs).
Qed.

Lemma exec_same_but_log (evs : list event) :
  forall sys1 sys2 : system,
    same_system_but_log sys1 sys2 ->
    same_system_but_log (exec evs sys1) (exec evs sys2).
Proof.
  induction evs as [|ev evs IH]; intros sys1 sys2 H; cbn; [exact H|].
  apply IH, step_same_but_log, H.
Qed.

Lemma trigger_flush_eq (s : state) :
  trigger_flush s
  = (Return tt,
     {| self := set_flush_event true (self s);
        env := add_log (Debug FlushTriggered) (env s) |}).
Proof. reflexivity. Qed.

(** Several calls of [trigger_flush] in a row and one call: the states
    differ in the log at most. *)
Lemma repeated_trigger_flush (n : nat) (sys : system) :
  same_system_but_log
    (exec (repeat Call_trigger_flush (S n)) sys)
    (step Call_trigger_flush sys).
Proof.
  revert sys. induction n as [|n IH]; intros sys.
  - cbn. split; [apply same_but_log_refl|reflexivity].
  - change (repeat Call_trigger_flush (S (S n)))
      with (Call_trigger_flush :: repeat Call_trigger_flush (S n)).
    change (exec (Call_trigger_flush :: ?l) sys)
      with (exec l (step Call_trigger_flush sys)).
    destruct (IH (step Call_trigger_flush sys)) as ((H1 & H2 & H3) & Hpc).
    split; [|exact Hpc]. unfold same_but_log. rewrite H1, H2, H3.
    cbn. auto.
Qed.

Lemma thread_step_wait_triggered (o : oracle) (sys : system) :
  at_pc sys = AtWait ->
  _flush_event (self (st sys)) = true ->
  wait_answers o <> WaitRaisesTypeError ->
  thread_step o sys
  = {| st := snd (logger_debug FlushingOnTrigger (st sys));
       at_pc := AtLoopTest |}.
Proof.
  intros Hpc Hev Hw. unfold thread_step. rewrite Hpc, Hev.
  destruct (wait_answers o); [reflexivity..|now destruct Hw].
Qed.

Lemma thread_step_test_running (o : oracle) (sys : system) :
  at_pc sys = AtLoopTest ->
  running (self (st sys)) = true ->
  thread_step o sys = {| st := st sys; at_pc := AtFlush |}.
Proof. intros Hpc Hr. unfold thread_step. now rewrite Hpc, Hr. Qed.

(** From the wait with the event set: one turn of the loop, back to the
    wait with the event cleared. *)
Lemma one_wake_cycle (sys : system) (o1 o2 o3 o4 : oracle) (v : cval) :
  at_pc sys = AtWait ->
  _flush_event (self (st sys)) = true ->
  running (self (st sys)) = true \/ queue (self (st sys)) <> [] ->
  config (self (st sys)) !! "interval" = Some v ->
  wait_answers o1 <> WaitRaisesTypeError ->
  let sys' := exec [Thread o1; Thread o2; Thread o3; Thread o4] sys in
  at_pc sys' = AtWait
  /\ flushes sys' = S (flushes sys)
  /\ _flush_event (self (st sys')) = false.
Proof.
  intros Hpc Hev Hr Hi Hw sys'. subst sys'.
  unfold exec. cbn [fold_left step].
  rewrite (thread_step_wait_triggered o1 sys Hpc Hev Hw).
  rewrite (thread_step_test_passes o2) by (cbn; auto).
  rewrite (thread_step_flush o3) by reflexivity.
  cbn [st].
  destruct (flush_guarded_frame (flush_answer o3)
              (snd (logger_debug FlushingOnTrigger (st sys))))
    as (_ & Hc & _ & _ & _ & Hb).
  rewrite (thread_step_clear o4 _ v);
    [|reflexivity|cbn [st]; rewrite Hc; exact Hi].
  unfold flushes. cbn [st at_pc self env set_flush_event _flush_event].
  rewrite Hb, length_app. cbn. repeat split. lia.
Qed.



(** ** Further properties of the methods *)

(** *** [queue_index]: configuration and threshold *)

(** X1. When [index_prefix] is missing from the configuration or is not a
    string, [queue_index] raises ([KeyError] for the missing key) before it
    touches anything: no record is queued, nothing is logged, the event is
    as it was. *)
Theorem queue_index_bad_index_prefix
    (suffix doc_type : string) (body : pyval)
    (pps : option (list postprocessor)) (s : state) :
  has_index_prefix (config (self s)) = false ->
  exists e : exn,
    queue_index suffix doc_type body pps s = (Raise e, s)
    /\ (config (self s) !! "index_prefix" = None -> e = KeyError "index_prefix").
Proof.
  unfold has_index_prefix. intros H.
  unfold queue_index. unfold_M. cbn.
  destruct (config (self s) !! "index_prefix") as [[| |p]|] eqn:Hp; cbn;
    try discriminate H; eexists; (split; [reflexivity|]);
    intros; congruence.
Qed.

(** X2. With [max_queue_length = k] an integer, [queue_index] returns with
    the record appended, and the flush event afterwards is set exactly when
    it was set before or the queue has reached [k] records: below the
    threshold the call signals nothing, and it never clears a signal. *)
Theorem queue_index_event_threshold
    (suffix doc_type : string) (body : pyval)
    (pps : option (list postprocessor)) (prefix : string) (k : Z)
    (s : state) :
  config (self s) !! "index_prefix" = Some (CStr prefix) ->
  config (self s) !! "max_queue_length" = Some (CInt k) ->
  exists s' : state,
    queue_index suffix doc_type body pps s = (Return tt, s')
    /\ queue (self s')
       = queue (self s) ++ [queued_item prefix suffix doc_type body pps]
    /\ _flush_event (self s')
       = _flush_event (self s)
         || (k <=? Z.of_nat (length (queue (self s)) + 1))%Z
    /\ running (self s') = running (self s)
    /\ exceptions (self s') = exceptions (self s).
Proof.
  intros Hp Hm.
  rewrite (queue_index_eq _ _ _ _ prefix) by exact Hp.
  rewrite Hm. cbn [is_not_None int_ge andb].
  rewrite length_app. cbn [length].
  destruct (k <=? Z.of_nat (length (queue (self s)) + 1))%Z;
    eexists; (split; [reflexivity|]); cbn;
    rewrite ?orb_true_r, ?orb_false_r; auto.
Qed.

(** X3. With [index_prefix] a string and no key [max_queue_length] in the
    configuration, [queue_index] raises [KeyError] after the append: the
    caller sees an exception and the record is in the queue all the same
    (a second call would queue it twice); no flush is signalled. *)
Theorem queue_index_missing_max_appends
    (suffix doc_type : string) (body : pyval)
    (pps : option (list postprocessor)) (prefix : string) (s : state) :
  config (self s) !! "index_prefix" = Some (CStr prefix) ->
  config (self s) !! "max_queue_length" = None ->
  exists s' : state,
    queue_index suffix doc_type body pps s
    = (Raise (KeyError "max_queue_length"), s')
    /\ queue (self s')
       = queue (self s) ++ [queued_item prefix suffix doc_type body pps]
    /\ _flush_event (self s') = _flush_event (self s)
    /\ log (env s')
       = log (env s)
         ++ [Debug (PutAction (length (queue (self s)) + 1) doc_type)].
Proof.
  intros Hp Hm.
  rewrite (queue_index_eq _ _ _ _ prefix) by exact Hp.
  rewrite Hm. eexists. split; [reflexivity|]. cbn.
  rewrite length_app. cbn. auto.
Qed.

(** *** [_run_postprocessors]: composition and frame *)

(** X11. The postprocessors compose: running the list [pre ++ post] on an
    action is running [pre] and then [post] on the action and the state
    that [pre] left. *)
Theorem run_postprocessors_compose
    (a : action) (pre post : list postprocessor) (s : state) :
  _run_postprocessors (a, pre ++ post) s
  = (let* a1 := _run_postprocessors (a, pre) in
     _run_postprocessors (a1, post)) s.
Proof.
  unfold bind. rewrite (run_postprocessors_eq (a, pre)).
  rewrite !run_postprocessors_eq. cbn [fst snd].
  rewrite postprocess_app. cbn [fst snd]. now rewrite with_log_app.
Qed.

Lemma postprocess_frame (pps : list postprocessor) :
  forall a : action,
    _op_type (fst (postprocess a pps)) = _op_type a
    /\ _index (fst (postprocess a pps)) = _index a
    /\ _type (fst (postprocess a pps)) = _type a
    /\ Forall (fun r => exists p, In p pps
                                  /\ r = Error (PostprocessorRaised (pp_repr p)))
         (snd (postprocess a pps))
    /\ length (snd (postprocess a pps)) <= length pps.
Proof.
  induction pps as [|p rest IH]; intros a; cbn.
  - repeat split; auto.
  - destruct (pp_call p (_source a)) as [v|e]; cbn.
    + destruct (IH (set_source a v)) as (H1 & H2 & H3 & H4 & H5).
      repeat split; auto.
      eapply Forall_impl; [exact H4|].
      intros r (q & Hq & ->). exists q. auto.
    + destruct (IH a) as (H1 & H2 & H3 & H4 & H5).
      repeat split; auto; [|lia].
      constructor; [exists p; auto|].
      eapply Forall_impl; [exact H4|].
      intros r (q & Hq & ->). exists q. auto.
Qed.

(** X10. Whatever the postprocessors do, [_run_postprocessors] changes the
    body of the action only: the operation type, the index and the type are
    those of the queued action; the object, the bulk calls and the files
    are untouched; and the log gains error records only, each naming a
    postprocessor of the item, at most one for each. *)
Theorem run_postprocessors_frame (item : queue_item) (s : state) :
  exists (a' : action) (lg : list log_record),
    _run_postprocessors item s = (Return a', with_log lg s)
    /\ _op_type a' = _op_type (fst item)
    /\ _index a' = _index (fst item)
    /\ _type a' = _type (fst item)
    /\ Forall (fun r => exists p, In p (snd item)
                                  /\ r = Error (PostprocessorRaised (pp_repr p)))
         lg
    /\ length lg <= length (snd item).
Proof.
  rewrite run_postprocessors_eq.
  destruct (postprocess_frame (snd item) (fst item)) as (H1 & H2 & H3 & H4 & H5).
  eexists _, _. split; [reflexivity|]. auto.
Qed.

(** *** [_flush]: the outcomes the claims leave out *)

Lemma last_exception_snoc (s : state) (l : list exn) (e : exn) :
  exceptions (self s) = l ++ [e] ->
  last_exception s = (Return (Some e), s).
Proof.
  intros H. unfold last_exception. unfold_M. cbn. rewrite H.
  rewrite length_app, Nat.add_comm. cbn.
  rewrite Nat.sub_0_r, lookup_app_r by lia.
  now rewrite Nat.sub_diag.
Qed.

(** A flush that raises, seen from [run]: the step ends at the [finally]
    clause, the exception is the last of [exceptions], and [last_exception]
    returns it. *)
Lemma flush_raises_recorded (o : oracle) (s s1 : state) (e : exn) :
  _flush (flush_answer o) s = (Raise e, s1) ->
  let after := thread_step o {| st := s; at_pc := AtFlush |} in
  at_pc after = AtClear
  /\ exceptions (self (st after)) = exceptions (self s) ++ [e]
  /\ last_exception (st after) = (Return (Some e), st after).
Proof.
  intros Hf after.
  assert (Hafter : after
            = {| st := {| self := set_exceptions (exceptions (self s1) ++ [e])
                                    (self s1);
                          env := add_log (Error UnexpectedException) (env s1) |};
                 at_pc := AtClear |}).
  { subst after. unfold thread_step. cbn [at_pc st].
    now rewrite flush_guarded_eq, Hf. }
  clearbody after. subst after. cbn [at_pc st].
  destruct (flush_frame (flush_answer o) s) as (Hself & _).
  rewrite Hf in Hself. cbn [snd] in Hself.
  assert (Hexc : exceptions (self s1) = exceptions (self s))
    by (now rewrite Hself).
  split; [reflexivity|]. split; [cbn; now rewrite Hexc|].
  apply (last_exception_snoc _ (exceptions (self s1))). reflexivity.
Qed.

(** X4. When the bulk write returns, [_flush] returns; the state it leaves
    is the same whatever [open] and [write] would have answered: the queue
    emptied, the batch given to the bulk write, the files untouched, and
    the log ended by the debug record that counts the records of the
    batch. *)
Theorem flush_success (fe : flush_env) (s : state) :
  bulk_raises fe = None ->
  _flush fe s
  = (Return tt,
     {| self := set_queue [] (self s);
        env := {| log := log (env s) ++ batch_log (queue (self s))
                         ++ [Debug (Flushed (length (queue (self s))))];
                  bulk_calls := bulk_calls (env s)
                                ++ [batch_actions (queue (self s))];
                  files := files (env s) |} |}).
Proof.
  intros Hb. rewrite flush_eq_batch, flush_batch_eq, Hb.
  unfold after_bulk, logger_debug, modify_env, add_log, add_bulk_call, with_log.
  cbn. now rewrite <- app_assoc.
Qed.

(** X5. When the bulk write raises an exception that is not a transport
    error, [_flush] raises it: the fallback file is not written, no error
    is logged for the batch, and the batch is in the queue no more. In
    [run] the exception is appended to [exceptions], and [last_exception]
    returns it. *)
Theorem flush_other_bulk_error (fe : flush_env) (s : state) (e : exn) :
  bulk_raises fe = Some e ->
  is_TransportError e = false ->
  fst (_flush fe s) = Raise e
  /\ files (env (snd (_flush fe s))) = files (env s)
  /\ log (env (snd (_flush fe s)))
     = log (env s) ++ batch_log (queue (self s))
  /\ queue (self (snd (_flush fe s))) = []
  /\ (forall o : oracle,
        flush_answer o = fe ->
        at_pc (thread_step o {| st := s; at_pc := AtFlush |}) = AtClear
        /\ exceptions (self (st (thread_step o {| st := s; at_pc := AtFlush |})))
           = exceptions (self s) ++ [e]
        /\ fst (last_exception
                  (st (thread_step o {| st := s; at_pc := AtFlush |})))
           = Return (Some e)).
Proof.
  intros Hb Ht.
  assert (Hf : _flush fe s = (Raise e, after_bulk (queue (self s))
                                         {| self := set_queue [] (self s);
                                            env := env s |}))
    by (now rewrite flush_eq_batch, flush_batch_eq, Hb, Ht).
  rewrite Hf. cbn [fst snd].
  split; [reflexivity|]. split; [reflexivity|]. split; [reflexivity|].
  split; [reflexivity|].
  intros o <-. destruct (flush_raises_recorded o s _ e Hf) as (H1 & H2 & H3).
  rewrite H3. auto.
Qed.

(** X6. A flush of an empty queue is a flush all the same: the bulk write
    is called, with the empty list; and when it raises a transport error
    and the fallback file can be opened, the file is there afterwards,
    empty when it was not there and unchanged otherwise, no [write] being
    called. *)
Theorem flush_empty_queue (fe : flush_env) (s : state) :
  queue (self s) = [] ->
  bulk_calls (env (snd (_flush fe s))) = bulk_calls (env s) ++ [[]]
  /\ (forall (e : exn) (path : string),
        bulk_raises fe = Some e ->
        is_TransportError e = true ->
        config (self s) !! "fallback_log_file" = Some (CStr path) ->
        open_raises fe = None ->
        fst (_flush fe s) = Return tt
        /\ files (env (snd (_flush fe s)))
           = <[path := default "" (files (env s) !! path)]> (files (env s))).
Proof.
  intros Hq. split.
  - destruct (flush_frame fe s) as (_ & Hb). now rewrite Hb, Hq.
  - intros e path Hb Ht Hc Ho.
    rewrite flush_eq_batch, flush_batch_eq, Hb, Ht, Hq.
    unfold write_fallback. unfold_M. cbn. rewrite Hc. cbn.
    unfold _open. rewrite Ho. cbn. auto.
Qed.

(** X7. When the bulk write raises a transport error and the configuration
    has no key [fallback_log_file], [_flush] raises [KeyError]: nothing is
    written, the loss of the batch is not logged, and [run] appends the
    [KeyError] to [exceptions]. *)
Theorem flush_missing_fallback_key (fe : flush_env) (s : state) (e : exn) :
  bulk_raises fe = Some e ->
  is_TransportError e = true ->
  config (self s) !! "fallback_log_file" = None ->
  fst (_flush fe s) = Raise (KeyError "fallback_log_file")
  /\ files (env (snd (_flush fe s))) = files (env s)
  /\ log (env (snd (_flush fe s)))
     = log (env s) ++ batch_log (queue (self s)) ++ [Error ErrorInFlushing]
  /\ queue (self (snd (_flush fe s))) = []
  /\ (forall o : oracle,
        flush_answer o = fe ->
        at_pc (thread_step o {| st := s; at_pc := AtFlush |}) = AtClear
        /\ exceptions (self (st (thread_step o {| st := s; at_pc := AtFlush |})))
           = exceptions (self s) ++ [KeyError "fallback_log_file"]).
Proof.
  intros Hb Ht Hc.
  assert (Hf : exists s1,
            _flush fe s = (Raise (KeyError "fallback_log_file"), s1)
            /\ files (env s1) = files (env s)
            /\ log (env s1)
               = log (env s) ++ batch_log (queue (self s))
                 ++ [Error ErrorInFlushing]
            /\ queue (self s1) = []).
  { rewrite flush_eq_batch, flush_batch_eq, Hb, Ht.
    unfold write_fallback. unfold_M. cbn. rewrite Hc. cbn.
    eexists. split; [reflexivity|]. cbn. rewrite <- app_assoc. auto. }
  destruct Hf as (s1 & Hf & H1 & H2 & H3).
  rewrite Hf. cbn [fst snd].
  split; [reflexivity|]. split; [exact H1|]. split; [exact H2|].
  split; [exact H3|].
  intros o <-. destruct (flush_raises_recorded o s _ _ Hf) as (Ha & Hb' & _).
  auto.
Qed.

(** The writes up to the one that raises. *)
Lemma write_lines_partial (fe : flush_env) (path : string) (j : nat) (e : exn)
    (lines : list string) :
  write_raises fe = Some (j, e) ->
  forall (i : nat) (c : string) (s : state),
    i <= j < i + length lines ->
    files (env s) !! path = Some c ->
    write_lines fe path i lines s
    = (Raise e, with_file path (c +:+ concat_lines (take (j - i) lines)) s).
Proof.
  intros Hw. induction lines as [|line rest IH]; intros i c s Hj Hc;
    cbn [length] in Hj; [lia|].
  cbn [write_lines]. unfold bind, file_write. rewrite Hw.
  destruct (Nat.eqb_spec i j) as [->|Hne].
  - rewrite Nat.sub_diag. cbn. unfold raise, with_file, set_files.
    rewrite string_app_nil_r, insert_id by exact Hc.
    now destruct s as [sf [lg bc fs]].
  - unfold modify_env. rewrite Hc. cbn [default].
    change {| self := self s;
              env := set_files (<[path := c +:+ line]> (files (env s))) (env s) |}
      with (with_file path (c +:+ line) s).
    rewrite (IH (S i) (c +:+ line)); [|lia|unfold with_file; cbn; apply lookup_insert_eq].
    replace (j - i) with (S (j - S i)) by lia. cbn [take concat_lines foldr].
    rewrite <- string_app_assoc.
    unfold with_file, set_files. cbn [self env files log bulk_calls].
    now rewrite insert_insert_eq.
Qed.

Lemma write_fallback_partial (fe : flush_env) (actions : list action)
    (path : string) (j : nat) (e : exn) (s : state) :
  config (self s) !! "fallback_log_file" = Some (CStr path) ->
  open_raises fe = None ->
  write_raises fe = Some (j, e) ->
  j < length actions ->
  write_fallback fe actions s
  = (Raise e,
     with_file path (default "" (files (env s) !! path)
                     +:+ concat_lines (take j (json_lines_of actions))) s).
Proof.
  intros Hc Ho Hw Hj. unfold write_fallback. unfold bind at 1.
  unfold config_get. unfold_M. cbn. rewrite Hc.
  unfold _open. rewrite Ho. cbn.
  erewrite (write_lines_partial fe path j e); [|exact Hw| |].
  - unfold with_file, json_lines_of; cbn.
    now rewrite insert_insert_eq, Nat.sub_0_r.
  - rewrite length_map. lia.
  - cbn. apply lookup_insert_eq.
Qed.

(** X8. When the bulk write raises a transport error and the call number
    [j] of [write] raises [IOError], the [j] lines before it are in the
    fallback file, and yet the error logged counts the whole batch as
    lost. *)
Theorem flush_partial_fallback_write (fe : flush_env) (s : state) (e : exn)
    (path : string) (j : nat) (m : string) :
  bulk_raises fe = Some e ->
  is_TransportError e = true ->
  config (self s) !! "fallback_log_file" = Some (CStr path) ->
  open_raises fe = None ->
  write_raises fe = Some (j, IOError m) ->
  j < length (queue (self s)) ->
  fst (_flush fe s) = Return tt
  /\ files (env (snd (_flush fe s)))
     = <[path := default "" (files (env s) !! path)
                 +:+ concat_lines
                       (take j (map (fun a => dumps (action_doc a) +:+ newline)
                                  (batch_actions (queue (self s)))))]>
         (files (env s))
  /\ last (log (env (snd (_flush fe s))))
     = Some (Error (ErrorInFallback (length (queue (self s))))).
Proof.
  intros Hb Ht Hc Ho Hw Hj.
  rewrite flush_eq_batch, flush_batch_eq, Hb, Ht.
  rewrite (write_fallback_partial _ _ path j (IOError m)); try assumption.
  - cbn [is_IOError fst snd]. split; [reflexivity|]. split; [reflexivity|].
    unfold logger_error, modify_env, add_log. cbn. apply last_snoc.
  - unfold batch_actions. now rewrite length_map.
Qed.

(** X9. When the bulk write raises a transport error and [open] raises an
    exception that is not an [IOError], [_flush] raises that exception:
    the [except IOError] clause lets it pass, no loss is logged, and [run]
    appends it to [exceptions]. *)
Theorem flush_fallback_other_open_error (fe : flush_env) (s : state)
    (e e' : exn) (path : string) :
  bulk_raises fe = Some e ->
  is_TransportError e = true ->
  config (self s) !! "fallback_log_file" = Some (CStr path) ->
  open_raises fe = Some e' ->
  is_IOError e' = false ->
  fst (_flush fe s) = Raise e'
  /\ files (env (snd (_flush fe s))) = files (env s)
  /\ log (env (snd (_flush fe s)))
     = log (env s) ++ batch_log (queue (self s)) ++ [Error ErrorInFlushing]
  /\ (forall o : oracle,
        flush_answer o = fe ->
        at_pc (thread_step o {| st := s; at_pc := AtFlush |}) = AtClear
        /\ exceptions (self (st (thread_step o {| st := s; at_pc := AtFlush |})))
           = exceptions (self s) ++ [e']).
Proof.
  intros Hb Ht Hc Ho Hio.
  assert (Hf : exists s1,
            _flush fe s = (Raise e', s1)
            /\ files (env s1) = files (env s)
            /\ log (env s1)
               = log (env s) ++ batch_log (queue (self s))
                 ++ [Error ErrorInFlushing]).
  { rewrite flush_eq_batch, flush_batch_eq, Hb, Ht.
    unfold write_fallback. unfold_M. cbn. rewrite Hc. cbn.
    unfold _open. rewrite Ho. cbn. rewrite Hio.
    eexists. split; [reflexivity|]. cbn. rewrite <- app_assoc. auto. }
  destruct Hf as (s1 & Hf & H1 & H2).
  rewrite Hf. cbn [fst snd].
  split; [reflexivity|]. split; [exact H1|]. split; [exact H2|].
  intros o <-. destruct (flush_raises_recorded o s _ _ Hf) as (Ha & Hb' & _).
  auto.
Qed.

(** *** [run] and the calls of the main thread *)

(** What a call of [queue_index] touches, whether it returns or raises. *)
Lemma queue_index_touches (suffix doc_type : string) (body : pyval)
    (pps : option (list postprocessor)) (s : state) :
  let s' := snd (queue_index suffix doc_type body pps s) in
  queue (self s')
  = queue (self s) ++ queued_by_call (config (self s)) suffix doc_type body pps
  /\ config (self s') = config (self s)
  /\ exceptions (self s') = exceptions (self s)
  /\ running (self s') = running (self s)
  /\ bulk_calls (env s') = bulk_calls (env s)
  /\ files (env s') = files (env s)
  /\ (_flush_event (self s) = true -> _flush_event (self s') = true).
Proof.
  unfold queued_by_call.
  destruct (config (self s) !! "index_prefix") as [[| |prefix]|] eqn:Hp.
  1,2,4: unfold queue_index; unfold_M; cbn; rewrite Hp; cbn;
    rewrite app_nil_r; auto 10.
  cbv zeta. rewrite (queue_index_eq _ _ _ _ prefix) by exact Hp.
  destruct (config (self s) !! "max_queue_length") as [v|]; [|cbn; auto 10].
  destruct (is_not_None v && int_ge _ v); cbn; auto 10.
Qed.

Lemma exec_cons (ev : event) (evs : list event) (sys : system) :
  exec (ev :: evs) sys = exec evs (step ev sys).
Proof. reflexivity. Qed.

Lemma thread_step_handed_over (o : oracle) (sys : system) :
  handed_over (thread_step o sys) = handed_over sys.
Proof.
  destruct (at_pc sys) as [| | | |r] eqn:Hpc.
  - unfold thread_step. rewrite Hpc. destruct (running _ || _); reflexivity.
  - rewrite (thread_step_flush o sys Hpc). unfold handed_over. cbn [st].
    destruct (flush_guarded_frame (flush_answer o) (st sys))
      as (_ & _ & Hq & _ & _ & Hb).
    rewrite Hq, Hb, concat_app. cbn. now rewrite !app_nil_r.
  - unfold thread_step. rewrite Hpc. unfold clear_and_interval. unfold_M. cbn.
    destruct (config (self (st sys)) !! "interval"); reflexivity.
  - unfold thread_step. rewrite Hpc.
    destruct (wait_answers o); try destruct (_flush_event _); reflexivity.
  - unfold thread_step. now rewrite Hpc.
Qed.

Lemma batch_actions_app (q1 q2 : list queue_item) :
  batch_actions (q1 ++ q2) = batch_actions q1 ++ batch_actions q2.
Proof. unfold batch_actions. apply map_app. Qed.

Lemma step_handed_over (ev : event) (sys : system) :
  handed_over (step ev sys)
  = handed_over sys ++ batch_actions (queued_by (config (self (st sys))) ev).
Proof.
  destruct ev as [o|suffix doc_type body pps| |b]; cbn [step queued_by].
  - rewrite thread_step_handed_over. cbn. now rewrite app_nil_r.
  - destruct (queue_index_touches suffix doc_type body pps (st sys))
      as (Hq & _ & _ & _ & Hb & _).
    unfold handed_over. cbn [st]. rewrite Hq, Hb, batch_actions_app.
    now rewrite app_assoc.
  - unfold handed_over. cbn. now rewrite app_nil_r.
  - unfold handed_over. cbn. now rewrite app_nil_r.
Qed.

(** X13. No record is lost, doubled or overtaken between the queue and the
    bulk write. In every execution, with the thread and the main thread in
    any order and whatever fails, the actions given to the bulk write so
    far, followed by those of the records still in the queue, are the ones
    there were before followed by one action for each call of [queue_index]
    that found its [index_prefix], in the order of the calls. *)
Theorem exec_records_conserved (evs : list event) (sys : system) :
  handed_over (exec evs sys)
  = handed_over sys
    ++ batch_actions (flat_map (queued_by (config (self (st sys)))) evs).
Proof.
  revert sys. induction evs as [|ev evs IH]; intros sys.
  - cbn. now rewrite app_nil_r.
  - rewrite exec_cons, IH, step_handed_over, step_config.
    cbn [flat_map]. rewrite batch_actions_app. now rewrite app_assoc.
Qed.

Lemma step_exceptions (ev : event) (sys : system) :
  exists l : list exn,
    exceptions (self (st (step ev sys))) = exceptions (self (st sys)) ++ l
    /\ length l + flushes sys <= flushes (step ev sys).
Proof.
  destruct ev as [o|suffix doc_type body pps| |b]; cbn [step].
  - rewrite thread_step_flushes.
    destruct (at_pc sys) as [| | | |r] eqn:Hpc.
    2: { rewrite (thread_step_flush o sys Hpc). cbn [st].
         rewrite flush_guarded_eq.
         destruct (flush_frame (flush_answer o) (st sys)) as (Hself & _).
         destruct (_flush (flush_answer o) (st sys)) as [[[]|e] s1];
           cbn [snd] in *; cbn; rewrite Hself; cbn.
         - exists []. rewrite app_nil_r. cbn. auto.
         - exists [e]. cbn. auto. }
    all: exists []; rewrite app_nil_r; split; [|cbn; lia];
      unfold thread_step; rewrite Hpc; try reflexivity.
    + destruct (running _ || _); reflexivity.
    + unfold clear_and_interval. unfold_M. cbn.
      destruct (config (self (st sys)) !! "interval"); reflexivity.
    + destruct (wait_answers o); try destruct (_flush_event _); reflexivity.
  - destruct (queue_index_touches suffix doc_type body pps (st sys))
      as (_ & _ & He & _ & Hb & _).
    exists []. rewrite app_nil_r. unfold flushes. cbn [st].
    rewrite He, Hb. cbn. auto.
  - exists []. rewrite app_nil_r. cbn. auto.
  - exists []. rewrite app_nil_r. cbn. auto.
Qed.

Lemma step_flushes_le (ev : event) (sys : system) :
  flushes sys <= flushes (step ev sys).
Proof. destruct (step_exceptions ev sys) as (l & _ & H). lia. Qed.

(** X12. The list [exceptions] only grows, and by at most one exception for
    each flush: in every execution the list afterwards is the list before
    with exceptions appended, no more of them than flushes were made; and
    the configuration is the one the object was made with. *)
Theorem exec_exceptions_grow (evs : list event) (sys : system) :
  exists l : list exn,
    exceptions (self (st (exec evs sys))) = exceptions (self (st sys)) ++ l
    /\ length l + flushes sys <= flushes (exec evs sys)
    /\ config (self (st (exec evs sys))) = config (self (st sys)).
Proof.
  revert sys. induction evs as [|ev evs IH]; intros sys.
  - exists []. cbn. rewrite app_nil_r. auto.
  - rewrite exec_cons.
    destruct (IH (step ev sys)) as (l2 & H2 & Hn2 & Hc2).
    destruct (step_exceptions ev sys) as (l1 & H1 & Hn1).
    exists (l1 ++ l2). rewrite H2, H1, <- app_assoc, length_app.
    rewrite Hc2, step_config. repeat split. lia.
Qed.

Lemma exec_calls (evs : list event) :
  forall sys : system,
    forallb is_call evs = true ->
    at_pc (exec evs sys) = at_pc sys
    /\ bulk_calls (env (st (exec evs sys))) = bulk_calls (env (st sys))
    /\ files (env (st (exec evs sys))) = files (env (st sys))
    /\ exceptions (self (st (exec evs sys))) = exceptions (self (st sys)).
Proof.
  induction evs as [|ev evs IH]; intros sys H; [cbn; auto|].
  cbn [forallb] in H. apply andb_true_iff in H as (Hev & H).
  rewrite exec_cons. destruct (IH (step ev sys) H) as (H1 & H2 & H3 & H4).
  rewrite H1, H2, H3, H4.
  destruct ev as [o|suffix doc_type body pps| |b]; [discriminate Hev|..];
    cbn [step st at_pc]; try (cbn; auto; fail).
  destruct (queue_index_touches suffix doc_type body pps (st sys))
    as (_ & _ & He & _ & Hb & Hf & _).
  auto.
Qed.

(** X14. A signal given while the thread is between its flush and the
    [clear] of the [finally] clause is lost. Whatever the main thread calls
    at that point ([trigger_flush], or [queue_index] reaching
    [max_queue_length]), the thread clears the event and then waits: the
    records queued meanwhile stay in the queue until the timer expires or
    the event is set again. *)
Theorem signal_before_clear_is_lost (sys : system) (evs : list event)
    (o o' : oracle) (v : cval) :
  at_pc sys = AtClear ->
  forallb is_call evs = true ->
  config (self (st sys)) !! "interval" = Some v ->
  wait_answers o' = StillWaiting ->
  at_pc (exec (evs ++ [Thread o]) sys) = AtWait
  /\ _flush_event (self (st (exec (evs ++ [Thread o]) sys))) = false
  /\ queue (self (st (exec (evs ++ [Thread o]) sys)))
     = queue (self (st (exec evs sys)))
  /\ flushes (exec (evs ++ [Thread o]) sys) = flushes sys
  /\ step (Thread o') (exec (evs ++ [Thread o]) sys)
     = exec (evs ++ [Thread o]) sys.
Proof.
  intros Hpc Hcalls Hi Hw.
  destruct (exec_calls evs sys Hcalls) as (Hpc' & Hb & _).
  rewrite exec_app. cbn [exec fold_left step].
  rewrite (thread_step_clear o _ v);
    [|congruence|rewrite exec_config; exact Hi].
  unfold flushes. cbn [st at_pc self env set_flush_event _flush_event queue].
  rewrite Hb. repeat split.
  unfold thread_step. cbn [at_pc st self _flush_event set_flush_event].
  now rewrite Hw.
Qed.

(** X15. [run] flushes before it waits: started with [running] true (or
    with records in the queue), the thread has given the queue to the bulk
    write after its first two steps, the test of the [while] and the flush,
    before any call of [Event.wait]. *)
Theorem run_flushes_first (s : state) (o1 o2 : oracle) :
  running (self s) = true \/ queue (self s) <> [] ->
  at_pc (run [o1; o2] s) = AtClear
  /\ bulk_calls (env (st (run [o1; o2] s)))
     = bulk_calls (env s) ++ [batch_actions (queue (self s))]
  /\ queue (self (st (run [o1; o2] s))) = []
  /\ _flush_event (self (st (run [o1; o2] s))) = _flush_event (self s).
Proof.
  intros Hr. unfold run, start, exec. cbn [map fold_left step].
  rewrite (thread_step_test_passes o1) by (cbn; auto).
  rewrite (thread_step_flush o2) by reflexivity. cbn [st at_pc].
  destruct (flush_guarded_frame (flush_answer o2) s)
    as (_ & _ & Hq & _ & He & Hb).
  auto.
Qed.

Lemma exec_threads_exited (answers : list oracle) (sys : system) :
  is_exited (at_pc sys) = true ->
  exec (map Thread answers) sys = sys.
Proof.
  intros H. induction answers as [|o rest IH]; [reflexivity|].
  cbn [map]. rewrite exec_cons.
  assert (Hs : step (Thread o) sys = sys).
  { cbn. unfold thread_step. destruct (at_pc sys); try discriminate H.
    reflexivity. }
  now rewrite Hs.
Qed.

Lemma thread_step_clear_no_interval (o : oracle) (sys : system) :
  at_pc sys = AtClear ->
  config (self (st sys)) !! "interval" = None ->
  thread_step o sys
  = {| st := {| self := set_flush_event false (self (st sys));
                env := env (st sys) |};
       at_pc := Exited (Uncaught (KeyError "interval")) |}.
Proof.
  intros Hpc Hi. unfold thread_step. rewrite Hpc.
  unfold clear_and_interval. unfold_M. cbn. now rewrite Hi.
Qed.

(** X16. Stopped before it starts: when [running] is false and the queue is
    empty at the start of [run], the thread leaves the loop at its first
    test, with no flush, no log record and no wait, and further steps
    change nothing. *)
Theorem run_stopped_before_start (s : state) (o : oracle)
    (answers : list oracle) :
  running (self s) = false ->
  queue (self s) = [] ->
  run (o :: answers) s = {| st := s; at_pc := Exited LoopEnd |}.
Proof.
  intros Hr Hq. unfold run. cbn [map]. rewrite exec_cons.
  assert (H1 : step (Thread o) (start s)
               = {| st := s; at_pc := Exited LoopEnd |}).
  { cbn. unfold thread_step. cbn. now rewrite Hr, Hq. }
  rewrite H1. now apply exec_threads_exited.
Qed.

(** X17. Without the key [interval] in the configuration the thread dies
    after its first flush: the lookup in the [finally] clause raises
    [KeyError], which leaves [run]; the flush has been made and the event
    cleared, and the [KeyError] is not in [exceptions]. *)
Theorem run_without_interval (s : state) (o1 o2 o3 : oracle) :
  running (self s) = true \/ queue (self s) <> [] ->
  config (self s) !! "interval" = None ->
  at_pc (run [o1; o2; o3] s) = Exited (Uncaught (KeyError "interval"))
  /\ bulk_calls (env (st (run [o1; o2; o3] s)))
     = bulk_calls (env s) ++ [batch_actions (queue (self s))]
  /\ _flush_event (self (st (run [o1; o2; o3] s))) = false
  /\ exceptions (self (st (run [o1; o2; o3] s)))
     = exceptions (self (snd (flush_guarded (flush_answer o2) s))).
Proof.
  intros Hr Hi. unfold run, start, exec. cbn [map fold_left step].
  rewrite (thread_step_test_passes o1) by (cbn; auto).
  rewrite (thread_step_flush o2) by reflexivity.
  destruct (flush_guarded_frame (flush_answer o2) s)
    as (_ & Hc & _ & _ & _ & Hb).
  rewrite (thread_step_clear_no_interval o3);
    [|reflexivity|cbn [st]; now rewrite Hc].
  cbn [st at_pc self env set_flush_event _flush_event exceptions]. auto.
Qed.

(** X18. Once the thread has left [run], nothing flushes the queue any
    more: whatever is called afterwards, the thread stays where it ended,
    the bulk calls, the files and the list of exceptions stay as they were,
    and what [queue_index] appends stays in the queue. *)
Theorem exited_thread_never_flushes (evs : list event) (sys : system) :
  is_exited (at_pc sys) = true ->
  at_pc (exec evs sys) = at_pc sys
  /\ bulk_calls (env (st (exec evs sys))) = bulk_calls (env (st sys))
  /\ files (env (st (exec evs sys))) = files (env (st sys))
  /\ exceptions (self (st (exec evs sys))) = exceptions (self (st sys))
  /\ queue (self (st (exec evs sys)))
     = queue (self (st sys))
       ++ flat_map (queued_by (config (self (st sys)))) evs.
Proof.
  revert sys. induction evs as [|ev evs IH]; intros sys H;
    [cbn; rewrite app_nil_r; auto 10|].
  rewrite exec_cons.
  assert (Hstep : at_pc (step ev sys) = at_pc sys
                  /\ bulk_calls (env (st (step ev sys)))
                     = bulk_calls (env (st sys))
                  /\ files (env (st (step ev sys))) = files (env (st sys))
                  /\ exceptions (self (st (step ev sys)))
                     = exceptions (self (st sys))
                  /\ queue (self (st (step ev sys)))
                     = queue (self (st sys))
                       ++ queued_by (config (self (st sys))) ev).
  { destruct ev as [o|suffix doc_type body pps| |b];
      cbn [step st at_pc queued_by].
    - assert (Hs : thread_step o sys = sys).
      { unfold thread_step. destruct (at_pc sys); try discriminate H.
        reflexivity. }
      rewrite Hs, app_nil_r. auto 10.
    - destruct (queue_index_touches suffix doc_type body pps (st sys))
        as (Hq & _ & He & _ & Hb & Hf & _).
      auto 10.
    - cbn. rewrite app_nil_r. auto 10.
    - cbn. rewrite app_nil_r. auto 10. }
  destruct Hstep as (S1 & S2 & S3 & S4 & S5).
  destruct (IH (step ev sys)) as (H1 & H2 & H3 & H4 & H5);
    [now rewrite S1|].
  rewrite H1, H2, H3, H4, H5, S5, step_config. cbn [flat_map].
  rewrite <- app_assoc. auto 10.
Qed.

Lemma step_keeps_running (ev : event) (sys : system) (v : cval) :
  is_exited (at_pc sys) = false ->
  running (self (st sys)) = true ->
  config (self (st sys)) !! "interval" = Some v ->
  keeps_running ev = true ->
  is_exited (at_pc (step ev sys)) = false
  /\ running (self (st (step ev sys))) = true.
Proof.
  intros Hpc Hr Hi Hk.
  destruct ev as [o|suffix doc_type body pps| |b]; cbn [step st at_pc].
  - split.
    + destruct (at_pc (thread_step o sys)) as [| | | |r] eqn:Hafter;
        try reflexivity.
      destruct (thread_step_exits o sys r Hpc Hafter)
        as [(_ & _ & H & _)|[(_ & _ & H)|(_ & _ & H)]].
      * congruence.
      * cbn in Hk. now rewrite H in Hk.
      * congruence.
    + unfold thread_step. destruct (at_pc sys) eqn:Hat; cbn [st]; try assumption.
      * destruct (running _ || _); assumption.
      * destruct (flush_guarded_frame (flush_answer o) (st sys))
          as (_ & _ & _ & Hrun & _).
        destruct (flush_guarded _ _) as [[[]|e] s1]; cbn in *; congruence.
      * unfold clear_and_interval. unfold_M. cbn. rewrite Hi. exact Hr.
      * destruct (wait_answers o); try destruct (_flush_event _); assumption.
  - destruct (queue_index_touches suffix doc_type body pps (st sys))
      as (_ & _ & _ & Hrun & _).
    split; [exact Hpc|congruence].
  - cbn. auto.
  - cbn in *. subst b. auto.
Qed.

(** X19. The thread does not stop by itself. While [running] stays true and
    [Event.wait] does not raise [TypeError] (and [interval] is configured),
    the thread is in its loop after every execution, whatever the bulk
    write, [open] and [write] answer and whatever is queued or signalled:
    no failure of a flush ends it. *)
Theorem thread_never_stops_by_itself (evs : list event) (sys : system)
    (v : cval) :
  is_exited (at_pc sys) = false ->
  running (self (st sys)) = true ->
  config (self (st sys)) !! "interval" = Some v ->
  forallb keeps_running evs = true ->
  is_exited (at_pc (exec evs sys)) = false
  /\ running (self (st (exec evs sys))) = true.
Proof.
  revert sys. induction evs as [|ev evs IH]; intros sys Hpc Hr Hi Hk;
    [cbn; auto|].
  cbn [forallb] in Hk. apply andb_true_iff in Hk as (Hev & Hk).
  rewrite exec_cons.
  destruct (step_keeps_running ev sys v Hpc Hr Hi Hev) as (Hpc' & Hr').
  apply IH; try assumption. now rewrite step_config.
Qed.

(** X20. The flush by size. When a call of [queue_index] brings the queue
    to [max_queue_length] while the thread waits, the thread does not wait
    for its timer: [Event.wait] returns, the test of the [while] passes
    and the flush gives the bulk write the whole queue, the new record
    last. *)
Theorem queue_index_threshold_wakes_thread (sys : system)
    (suffix doc_type : string) (body : pyval)
    (pps : option (list postprocessor)) (prefix : string) (k : Z)
    (o1 o2 o3 : oracle) :
  at_pc sys = AtWait ->
  config (self (st sys)) !! "index_prefix" = Some (CStr prefix) ->
  config (self (st sys)) !! "max_queue_length" = Some (CInt k) ->
  (k <= Z.of_nat (length (queue (self (st sys))) + 1))%Z ->
  wait_answers o1 <> WaitRaisesTypeError ->
  at_pc (exec [Call_queue_index suffix doc_type body pps;
               Thread o1; Thread o2; Thread o3] sys) = AtClear
  /\ bulk_calls (env (st (exec [Call_queue_index suffix doc_type body pps;
                                Thread o1; Thread o2; Thread o3] sys)))
     = bulk_calls (env (st sys))
       ++ [batch_actions
             (queue (self (st sys))
              ++ [queued_item prefix suffix doc_type body pps])]
  /\ queue (self (st (exec [Call_queue_index suffix doc_type body pps;
                            Thread o1; Thread o2; Thread o3] sys))) = [].
Proof.
  intros Hpc Hp Hm Hk Hw. rewrite exec_cons.
  assert (Hq : queue_index suffix doc_type body pps (st sys)
               = (Return tt,
                  snd (trigger_flush
                         (snd (logger_debug HitMaxQueueLength
                                 (after_append
                                    (queued_item prefix suffix doc_type body pps)
                                    doc_type (st sys))))))).
  { rewrite (queue_index_eq _ _ _ _ prefix) by exact Hp.
    rewrite Hm. cbn [is_not_None int_ge andb].
    rewrite length_app. cbn [length].
    destruct (Z.leb_spec k (Z.of_nat (length (queue (self (st sys))) + 1)));
      [reflexivity|lia]. }
  cbn [step]. rewrite Hq. cbn [snd].
  match goal with |- context [exec _ ?sys1] =>
    destruct (wake_and_flush sys1 o1 o2 o3) as (H1 & H2 & H3 & _) end.
  - exact Hpc.
  - right. cbn. now destruct (queue (self (st sys))).
  - right. split; [reflexivity|exact Hw].
  - cbn [st] in *. rewrite H1, H2, H3. cbn. auto.
Qed.
End WithDumps.

(** ** The statements at concrete inputs *)

(** The serializer on a body. *)
Example dumps_plain_body :
  dumps_plain ex_body = "{" +:+ quoted "a" +:+ ": 1}".
Proof. reflexivity. Qed.

(** C3 at a concrete input: of three transforms the second raises; the
    action comes out with the body the third made of the output of the
    first, and one error is logged. *)
Lemma run_postprocessors_failing_transform_witness :
  _run_postprocessors (ex_action, [ex_add_b]) (ex_new (ex_config CNone))
  = (Return (set_source ex_action (PDict [("a", PInt 1); ("b", PInt 2)])),
     ex_new (ex_config CNone))
  /\ pp_call ex_raising
       (deepcopy (_source (set_source ex_action
                             (PDict [("a", PInt 1); ("b", PInt 2)]))))
     = Raise (OtherError "no")
  /\ returns_chain
       (_source (set_source ex_action (PDict [("a", PInt 1); ("b", PInt 2)])))
       [ex_add_c]
       (PDict [("c", PInt 3); ("a", PInt 1); ("b", PInt 2)])
  /\ _run_postprocessors (ex_action, [ex_add_b] ++ ex_raising :: [ex_add_c])
       (ex_new (ex_config CNone))
     = (Return (set_source ex_action
                  (PDict [("c", PInt 3); ("a", PInt 1); ("b", PInt 2)])),
        snd (logger_error (PostprocessorRaised (pp_repr ex_raising))
               (ex_new (ex_config CNone)))).
Proof.
  assert (H1 : _run_postprocessors (ex_action, [ex_add_b])
                 (ex_new (ex_config CNone))
               = (Return (set_source ex_action
                            (PDict [("a", PInt 1); ("b", PInt 2)])),
                  ex_new (ex_config CNone)))
    by reflexivity.
  assert (H2 : pp_call ex_raising
                 (deepcopy (_source (set_source ex_action
                                       (PDict [("a", PInt 1); ("b", PInt 2)]))))
               = Raise (OtherError "no")) by reflexivity.
  assert (H3 : returns_chain
                 (_source (set_source ex_action
                             (PDict [("a", PInt 1); ("b", PInt 2)])))
                 [ex_add_c]
                 (PDict [("c", PInt 3); ("a", PInt 1); ("b", PInt 2)])).
  { eapply returns_chain_cons; [reflexivity|apply returns_chain_nil]. }
  split; [exact H1|]. split; [exact H2|]. split; [exact H3|].
  destruct (run_postprocessors_failing_transform
              ex_action _ [ex_add_b] [ex_add_c] ex_raising
              (OtherError "no") _ _ H1 H2)
    as (_ & _ & _ & _ & _ & _ & Hchain & _).
  exact (Hchain _ H3).
Defined.

(** C4 as stated fails: with the key [max_queue_length] absent from the
    configuration, [queue_index] raises [KeyError] (after the append). *)
Lemma queue_index_unset_max_queue_length_raises :
  ex_config_unset !! "max_queue_length" = None
  /\ fst (queue_index "x" "t" ex_body None (ex_new ex_config_unset))
     = Raise (KeyError "max_queue_length").
Proof. split; vm_compute; reflexivity. Qed.

Lemma queue_index_max_queue_length_None_witness :
  config (self (ex_new (ex_config CNone))) !! "index_prefix"
  = Some (CStr "logs-")
  /\ config (self (ex_new (ex_config CNone))) !! "max_queue_length"
     = Some CNone
  /\ fst (queue_index "x" "t" ex_body None (ex_new (ex_config CNone)))
     = Return tt
  /\ _flush_event
       (self (snd (queue_index "x" "t" ex_body None (ex_new (ex_config CNone)))))
     = false.
Proof.
  assert (H1 : config (self (ex_new (ex_config CNone))) !! "index_prefix"
               = Some (CStr "logs-")) by (vm_compute; reflexivity).
  assert (H2 : config (self (ex_new (ex_config CNone))) !! "max_queue_length"
               = Some CNone) by (vm_compute; reflexivity).
  split; [exact H1|]. split; [exact H2|].
  destruct (queue_index_max_queue_length_None "x" "t" ex_body None "logs-"
              (ex_new (ex_config CNone)) H1 H2) as (Heq & Hev).
  split; [now rewrite Heq|exact Hev].
Defined.

(** C5 at a concrete input: [max_queue_length = 2], one document in the
    queue, and the second arrives. *)
Lemma queue_index_reaching_max_sets_event_witness :
  config (self ex_one_queued_max2) !! "index_prefix" = Some (CStr "logs-")
  /\ config (self ex_one_queued_max2) !! "max_queue_length" = Some (CInt 2)
  /\ (0 < 2)%Z
  /\ (2 <= Z.of_nat (length (queue (self ex_one_queued_max2)) + 1))%Z
  /\ _flush_event (self ex_one_queued_max2) = false
  /\ exists s' : state,
       queue_index "y" "t" ex_body None ex_one_queued_max2 = (Return tt, s')
       /\ _flush_event (self s') = true
       /\ length (queue (self s')) = 2
       /\ bulk_calls (env s') = bulk_calls (env ex_one_queued_max2).
Proof.
  set (s := ex_one_queued_max2).
  assert (H1 : config (self s) !! "index_prefix" = Some (CStr "logs-"))
    by (vm_compute; reflexivity).
  assert (H2 : config (self s) !! "max_queue_length" = Some (CInt 2))
    by (vm_compute; reflexivity).
  assert (H3 : (0 < 2)%Z) by lia.
  assert (H4 : (2 <= Z.of_nat (length (queue (self s)) + 1))%Z)
    by (vm_compute; discriminate).
  repeat (split; [assumption|]). split; [reflexivity|].
  destruct (queue_index_reaching_max_sets_event "y" "t" ex_body None "logs-" 2
              s H1 H2 H3 H4) as (s' & Heq & Hev & Hq & Hb & _).
  exists s'. repeat split; try assumption.
  rewrite Hq, length_app. reflexivity.
Defined.

(** C1 at a concrete input: two calls, then a flush. *)
Lemma flush_after_enqueues_witness :
  queue (self (ex_new (ex_config CNone))) = []
  /\ queue_index_all ex_calls (ex_new (ex_config CNone))
     = (Return tt, ex_two_queued)
  /\ queue (self (snd (swap_queue ex_two_queued))) = []
  /\ forall fe : flush_env,
       exists actions : list action,
         bulk_calls (env (snd (_flush dumps_plain fe ex_two_queued)))
         = bulk_calls (env ex_two_queued) ++ [actions]
         /\ length actions = length ex_calls
         /\ queue (self (snd (_flush dumps_plain fe ex_two_queued))) = [].
Proof.
  assert (H1 : queue (self (ex_new (ex_config CNone))) = []) by reflexivity.
  assert (H2 : queue_index_all ex_calls (ex_new (ex_config CNone))
               = (Return tt, ex_two_queued)) by (vm_compute; reflexivity).
  split; [exact H1|]. split; [exact H2|].
  destruct (flush_after_enqueues dumps_plain ex_calls _ _ H1 H2)
    as (items & _ & _ & _ & _ & Hswap & Hflush).
  split; [exact Hswap|].
  intros fe. destruct (Hflush fe) as (actions & Hb & Hlen & _ & Hq).
  exists actions. auto.
Defined.

(** C2 as stated fails: the line of the fallback file is the JSON text of
    the whole action, not of the body of the document. *)
Lemma flush_fallback_line_is_the_action :
  bulk_raises ex_transport_error = Some (TransportError "connection refused")
  /\ map (fun item => _source (fst item)) (queue (self ex_one_queued))
     = [ex_body]
  /\ fst (_flush dumps_plain ex_transport_error ex_one_queued) = Return tt
  /\ files (env (snd (_flush dumps_plain ex_transport_error ex_one_queued)))
       !! "fallback.log"
     = Some (dumps_plain (action_doc ex_action) +:+ newline)
  /\ dumps_plain (action_doc ex_action) +:+ newline
     <> dumps_plain ex_body +:+ newline.
Proof. repeat split; vm_compute; (reflexivity || discriminate). Qed.

(** C2 at a concrete input. *)
Lemma flush_writes_fallback_file_witness :
  bulk_raises ex_transport_error = Some (TransportError "connection refused")
  /\ is_TransportError (TransportError "connection refused") = true
  /\ config (self ex_two_queued) !! "fallback_log_file"
     = Some (CStr "fallback.log")
  /\ open_raises ex_transport_error = None
  /\ writes_succeed ex_transport_error (length (queue (self ex_two_queued)))
     = true
  /\ files (env (snd (_flush dumps_plain ex_transport_error ex_two_queued)))
     = <["fallback.log" :=
          default "" (files (env ex_two_queued) !! "fallback.log")
          +:+ concat_lines
                (map (fun a => dumps_plain (action_doc a) +:+ newline)
                   (batch_actions (queue (self ex_two_queued))))]>
         (files (env ex_two_queued)).
Proof.
  assert (H1 : bulk_raises ex_transport_error
               = Some (TransportError "connection refused")) by reflexivity.
  assert (H2 : is_TransportError (TransportError "connection refused") = true)
    by reflexivity.
  assert (H3 : config (self ex_two_queued) !! "fallback_log_file"
               = Some (CStr "fallback.log")) by (vm_compute; reflexivity).
  assert (H4 : open_raises ex_transport_error = None) by reflexivity.
  assert (H5 : writes_succeed ex_transport_error
                 (length (queue (self ex_two_queued))) = true) by reflexivity.
  repeat (split; [assumption|]).
  exact (proj2 (proj2 (proj1 (flush_writes_fallback_file dumps_plain
                                ex_transport_error ex_two_queued _ _
                                H1 H2 H3 H4 H5)))).
Defined.

(** C6 at a concrete input: the bulk write fails and the fallback file
    cannot be opened. *)
Lemma flush_fallback_io_error_witness :
  bulk_raises ex_unwritable = Some (TransportError "connection refused")
  /\ is_TransportError (TransportError "connection refused") = true
  /\ config (self ex_two_queued) !! "fallback_log_file"
     = Some (CStr "fallback.log")
  /\ fallback_io_error ex_unwritable (length (queue (self ex_two_queued)))
  /\ fst (_flush dumps_plain ex_unwritable ex_two_queued) = Return tt
  /\ last (log (env (snd (_flush dumps_plain ex_unwritable ex_two_queued))))
     = Some (Error (ErrorInFallback 2))
  /\ queue (self (snd (_flush dumps_plain ex_unwritable ex_two_queued))) = [].
Proof.
  assert (H1 : bulk_raises ex_unwritable
               = Some (TransportError "connection refused")) by reflexivity.
  assert (H2 : is_TransportError (TransportError "connection refused") = true)
    by reflexivity.
  assert (H3 : config (self ex_two_queued) !! "fallback_log_file"
               = Some (CStr "fallback.log")) by (vm_compute; reflexivity).
  assert (H4 : fallback_io_error ex_unwritable
                 (length (queue (self ex_two_queued))))
    by (left; exists "permission denied"; reflexivity).
  repeat (split; [assumption|]).
  destruct (flush_fallback_io_error dumps_plain ex_unwritable ex_two_queued
              _ _ H1 H2 H3 H4) as (Hret & Hlog & _ & Hself & _).
  split; [exact Hret|]. split.
  - rewrite Hlog. vm_compute. reflexivity.
  - rewrite Hself. reflexivity.
Defined.

(** C7 as stated fails: [Event.wait] raises [TypeError] and the thread
    leaves [run] with [running] true. *)
Lemma run_exits_while_running :
  at_pc (run dumps_plain [ex_waiting; ex_waiting; ex_waiting; ex_type_error]
           (ex_new (ex_config CNone)))
  = Exited WaitTypeError
  /\ running (self (st (run dumps_plain
                          [ex_waiting; ex_waiting; ex_waiting; ex_type_error]
                          (ex_new (ex_config CNone)))))
     = true
  /\ exceptions (self (st (run dumps_plain
                             [ex_waiting; ex_waiting; ex_waiting; ex_type_error]
                             (ex_new (ex_config CNone)))))
     = [].
Proof. repeat split; vm_compute; reflexivity. Qed.

(** C7 at a concrete input. *)
Lemma run_exits_and_catches_witness :
  config (self (st (start (ex_new (ex_config CNone))))) !! "interval"
  = Some (CInt 30)
  /\ is_exited (at_pc (start (ex_new (ex_config CNone)))) = false
  /\ forall (evs : list event) (r : exit),
       at_pc (exec dumps_plain evs (start (ex_new (ex_config CNone))))
       = Exited r ->
       r = LoopEnd \/ r = WaitTypeError.
Proof.
  assert (H1 : config (self (st (start (ex_new (ex_config CNone)))))
                 !! "interval" = Some (CInt 30)) by (vm_compute; reflexivity).
  assert (H2 : is_exited (at_pc (start (ex_new (ex_config CNone)))) = false)
    by reflexivity.
  split; [exact H1|]. split; [exact H2|].
  intros evs r Hexit.
  destruct (proj1 (run_exits_and_catches dumps_plain _ _ H1 H2) evs r Hexit)
    as (evs1 & o & evs2 & _ & [(Hr & _)|(Hr & _)]); auto.
Defined.

(** C9 as stated fails: [running] is set to false with a document in the
    queue, [Event.wait] raises [TypeError], and the thread leaves [run]
    with no flush made and the document in the queue. *)
Lemma run_exits_with_pending_records :
  running (self (st (exec dumps_plain ex_stop_with_pending
                       (start (ex_new (ex_config CNone))))))
  = false
  /\ length (queue (self (st (exec dumps_plain ex_stop_with_pending
                                (start (ex_new (ex_config CNone)))))))
     = 1
  /\ at_pc (exec dumps_plain (ex_stop_with_pending ++ [Thread ex_type_error])
              (start (ex_new (ex_config CNone))))
     = Exited WaitTypeError
  /\ flushes (exec dumps_plain (ex_stop_with_pending ++ [Thread ex_type_error])
                (start (ex_new (ex_config CNone))))
     = flushes (exec dumps_plain ex_stop_with_pending
                  (start (ex_new (ex_config CNone))))
  /\ length (queue (self (st (exec dumps_plain
                                (ex_stop_with_pending ++ [Thread ex_type_error])
                                (start (ex_new (ex_config CNone)))))))
     = 1.
Proof. repeat split; vm_compute; reflexivity. Qed.

(** C9 at a concrete input: [running] is set to false while the thread
    waits, the queue empty; the timer expires and the thread leaves the
    loop by its test. *)
Lemma run_shutdown_witness :
  is_exited (at_pc (exec dumps_plain ex_stop_idle
                      (start (ex_new (ex_config CNone))))) = false
  /\ at_pc (exec dumps_plain ex_stop_idle (start (ex_new (ex_config CNone))))
     = AtWait
  /\ running (self (st (exec dumps_plain ex_stop_idle
                          (start (ex_new (ex_config CNone))))))
     = false
  /\ queue (self (st (exec dumps_plain ex_stop_idle
                        (start (ex_new (ex_config CNone))))))
     = []
  /\ _flush_event (self (st (exec dumps_plain ex_stop_idle
                               (start (ex_new (ex_config CNone))))))
     = false
  /\ wait_answers ex_timer = TimerExpires
  /\ at_pc (exec dumps_plain [Thread ex_timer; Thread ex_waiting]
              (exec dumps_plain ex_stop_idle
                 (start (ex_new (ex_config CNone)))))
     = Exited LoopEnd.
Proof.
  assert (H : is_exited (at_pc (exec dumps_plain ex_stop_idle
                                  (start (ex_new (ex_config CNone))))) = false)
    by (vm_compute; reflexivity).
  assert (H1 : at_pc (exec dumps_plain ex_stop_idle
                        (start (ex_new (ex_config CNone)))) = AtWait)
    by (vm_compute; reflexivity).
  assert (H2 : running (self (st (exec dumps_plain ex_stop_idle
                                    (start (ex_new (ex_config CNone))))))
               = false) by (vm_compute; reflexivity).
  assert (H3 : queue (self (st (exec dumps_plain ex_stop_idle
                                  (start (ex_new (ex_config CNone))))))
               = []) by (vm_compute; reflexivity).
  assert (H4 : _flush_event (self (st (exec dumps_plain ex_stop_idle
                                         (start (ex_new (ex_config CNone))))))
               = false) by (vm_compute; reflexivity).
  assert (H5 : wait_answers ex_timer = TimerExpires) by reflexivity.
  repeat (split; [assumption|]).
  destruct (run_shutdown dumps_plain _ H) as (_ & _ & Hwait & _).
  destruct (Hwait ex_timer ex_waiting H1 H2 H3 H4) as (_ & Htimer & _).
  exact (proj1 (Htimer H5)).
Defined.



(** ** The further properties at concrete inputs *)

(** X1 at a concrete input: no [index_prefix] in the configuration. *)
Lemma queue_index_bad_index_prefix_witness :
  has_index_prefix (config (self (ex_new ex_config_no_prefix))) = false
  /\ queue_index "x" "t" ex_body None (ex_new ex_config_no_prefix)
     = (Raise (KeyError "index_prefix"), ex_new ex_config_no_prefix).
Proof.
  assert (H : has_index_prefix (config (self (ex_new ex_config_no_prefix)))
              = false) by (vm_compute; reflexivity).
  split; [exact H|].
  destruct (queue_index_bad_index_prefix "x" "t" ex_body None _ H)
    as (e & Heq & He).
  rewrite Heq, He; [reflexivity|vm_compute; reflexivity].
Defined.

(** X2 at a concrete input: the first record of two. *)
Lemma queue_index_event_threshold_witness :
  config (self (ex_new (ex_config (CInt 2)))) !! "index_prefix"
  = Some (CStr "logs-")
  /\ config (self (ex_new (ex_config (CInt 2)))) !! "max_queue_length"
     = Some (CInt 2)
  /\ _flush_event
       (self (snd (queue_index "x" "t" ex_body None
                     (ex_new (ex_config (CInt 2))))))
     = false.
Proof.
  assert (H1 : config (self (ex_new (ex_config (CInt 2)))) !! "index_prefix"
               = Some (CStr "logs-")) by (vm_compute; reflexivity).
  assert (H2 : config (self (ex_new (ex_config (CInt 2))))
                 !! "max_queue_length" = Some (CInt 2))
    by (vm_compute; reflexivity).
  split; [exact H1|]. split; [exact H2|].
  destruct (queue_index_event_threshold "x" "t" ex_body None "logs-" 2 _ H1 H2)
    as (s' & Heq & _ & Hev & _).
  rewrite Heq. cbn [snd]. rewrite Hev. reflexivity.
Defined.

(** X3 at a concrete input. *)
Lemma queue_index_missing_max_appends_witness :
  config (self (ex_new ex_config_unset)) !! "index_prefix"
  = Some (CStr "logs-")
  /\ config (self (ex_new ex_config_unset)) !! "max_queue_length" = None
  /\ length (queue (self (snd (queue_index "x" "t" ex_body None
                                 (ex_new ex_config_unset)))))
     = 1.
Proof.
  assert (H1 : config (self (ex_new ex_config_unset)) !! "index_prefix"
               = Some (CStr "logs-")) by (vm_compute; reflexivity).
  assert (H2 : config (self (ex_new ex_config_unset)) !! "max_queue_length"
               = None) by (vm_compute; reflexivity).
  split; [exact H1|]. split; [exact H2|].
  destruct (queue_index_missing_max_appends "x" "t" ex_body None "logs-" _ H1 H2)
    as (s' & Heq & Hq & _).
  rewrite Heq. cbn [snd]. rewrite Hq. reflexivity.
Defined.

(** X4 at a concrete input. *)
Lemma flush_success_witness :
  bulk_raises ex_bulk_ok = None
  /\ fst (_flush dumps_plain ex_bulk_ok ex_two_queued) = Return tt
  /\ last (log (env (snd (_flush dumps_plain ex_bulk_ok ex_two_queued))))
     = Some (Debug (Flushed 2)).
Proof.
  assert (H : bulk_raises ex_bulk_ok = None) by reflexivity.
  split; [exact H|].
  rewrite (flush_success dumps_plain ex_bulk_ok ex_two_queued H).
  split; [reflexivity|vm_compute; reflexivity].
Defined.

(** X5 at a concrete input. *)
Lemma flush_other_bulk_error_witness :
  bulk_raises ex_other_bulk_error = Some (OtherError "bulk index error")
  /\ is_TransportError (OtherError "bulk index error") = false
  /\ fst (_flush dumps_plain ex_other_bulk_error ex_two_queued)
     = Raise (OtherError "bulk index error")
  /\ files (env (snd (_flush dumps_plain ex_other_bulk_error ex_two_queued)))
     = files (env ex_two_queued).
Proof.
  assert (H1 : bulk_raises ex_other_bulk_error
               = Some (OtherError "bulk index error")) by reflexivity.
  assert (H2 : is_TransportError (OtherError "bulk index error") = false)
    by reflexivity.
  split; [exact H1|]. split; [exact H2|].
  destruct (flush_other_bulk_error dumps_plain ex_other_bulk_error
              ex_two_queued _ H1 H2) as (Hr & Hf & _).
  auto.
Defined.

(** X6 at a concrete input: the first flush of a new object, the store
    unreachable. *)
Lemma flush_empty_queue_witness :
  queue (self (ex_new (ex_config CNone))) = []
  /\ bulk_calls (env (snd (_flush dumps_plain ex_transport_error
                             (ex_new (ex_config CNone)))))
     = [[]]
  /\ files (env (snd (_flush dumps_plain ex_transport_error
                        (ex_new (ex_config CNone)))))
       !! "fallback.log"
     = Some "".
Proof.
  assert (H : queue (self (ex_new (ex_config CNone))) = []) by reflexivity.
  split; [exact H|].
  destruct (flush_empty_queue dumps_plain ex_transport_error _ H)
    as (Hb & Hf).
  split; [exact Hb|].
  destruct (Hf (TransportError "connection refused") "fallback.log")
    as (_ & Hfiles); [reflexivity|reflexivity|vm_compute; reflexivity
                     |reflexivity|].
  rewrite Hfiles. vm_compute. reflexivity.
Defined.

(** X7 at a concrete input. *)
Lemma flush_missing_fallback_key_witness :
  bulk_raises ex_transport_error = Some (TransportError "connection refused")
  /\ is_TransportError (TransportError "connection refused") = true
  /\ config (self ex_two_queued_no_fallback) !! "fallback_log_file" = None
  /\ fst (_flush dumps_plain ex_transport_error ex_two_queued_no_fallback)
     = Raise (KeyError "fallback_log_file").
Proof.
  assert (H1 : bulk_raises ex_transport_error
               = Some (TransportError "connection refused")) by reflexivity.
  assert (H2 : is_TransportError (TransportError "connection refused") = true)
    by reflexivity.
  assert (H3 : config (self ex_two_queued_no_fallback) !! "fallback_log_file"
               = None) by (vm_compute; reflexivity).
  repeat (split; [assumption|]).
  exact (proj1 (flush_missing_fallback_key dumps_plain ex_transport_error
                  ex_two_queued_no_fallback _ H1 H2 H3)).
Defined.

(** X8 at a concrete input: two records, the second write fails; the line
    of the first record is in the file and two logs are counted lost. *)
Lemma flush_partial_fallback_write_witness :
  bulk_raises ex_second_write_fails
  = Some (TransportError "connection refused")
  /\ is_TransportError (TransportError "connection refused") = true
  /\ config (self ex_two_queued) !! "fallback_log_file"
     = Some (CStr "fallback.log")
  /\ open_raises ex_second_write_fails = None
  /\ write_raises ex_second_write_fails
     = Some (1, IOError "no space left on device")
  /\ 1 < length (queue (self ex_two_queued))
  /\ files (env (snd (_flush dumps_plain ex_second_write_fails ex_two_queued)))
       !! "fallback.log"
     = Some (dumps_plain (action_doc ex_action) +:+ newline)
  /\ last (log (env (snd (_flush dumps_plain ex_second_write_fails
                            ex_two_queued))))
     = Some (Error (ErrorInFallback 2)).
Proof.
  assert (H1 : bulk_raises ex_second_write_fails
               = Some (TransportError "connection refused")) by reflexivity.
  assert (H2 : is_TransportError (TransportError "connection refused") = true)
    by reflexivity.
  assert (H3 : config (self ex_two_queued) !! "fallback_log_file"
               = Some (CStr "fallback.log")) by (vm_compute; reflexivity).
  assert (H4 : open_raises ex_second_write_fails = None) by reflexivity.
  assert (H5 : write_raises ex_second_write_fails
               = Some (1, IOError "no space left on device")) by reflexivity.
  assert (H6 : 1 < length (queue (self ex_two_queued)))
    by (vm_compute; lia).
  repeat (split; [assumption|]).
  destruct (flush_partial_fallback_write dumps_plain ex_second_write_fails
              ex_two_queued _ "fallback.log" 1 _ H1 H2 H3 H4 H5 H6)
    as (_ & Hf & Hl).
  split; [rewrite Hf; vm_compute; reflexivity|exact Hl].
Defined.

(** X9 at a concrete input. *)
Lemma flush_fallback_other_open_error_witness :
  bulk_raises ex_open_other_error = Some (TransportError "connection refused")
  /\ is_TransportError (TransportError "connection refused") = true
  /\ config (self ex_two_queued) !! "fallback_log_file"
     = Some (CStr "fallback.log")
  /\ open_raises ex_open_other_error = Some (OtherError "not a file")
  /\ is_IOError (OtherError "not a file") = false
  /\ fst (_flush dumps_plain ex_open_other_error ex_two_queued)
     = Raise (OtherError "not a file").
Proof.
  assert (H1 : bulk_raises ex_open_other_error
               = Some (TransportError "connection refused")) by reflexivity.
  assert (H2 : is_TransportError (TransportError "connection refused") = true)
    by reflexivity.
  assert (H3 : config (self ex_two_queued) !! "fallback_log_file"
               = Some (CStr "fallback.log")) by (vm_compute; reflexivity).
  assert (H4 : open_raises ex_open_other_error
               = Some (OtherError "not a file")) by reflexivity.
  assert (H5 : is_IOError (OtherError "not a file") = false) by reflexivity.
  repeat (split; [assumption|]).
  exact (proj1 (flush_fallback_other_open_error dumps_plain
                  ex_open_other_error ex_two_queued _ _ "fallback.log"
                  H1 H2 H3 H4 H5)).
Defined.

(** X14 at a concrete input: [trigger_flush] right after the first flush. *)
Lemma signal_before_clear_is_lost_witness :
  at_pc (exec dumps_plain ex_to_first_clear (start (ex_new (ex_config CNone))))
  = AtClear
  /\ forallb is_call [Call_trigger_flush] = true
  /\ config (self (st (exec dumps_plain ex_to_first_clear
                         (start (ex_new (ex_config CNone))))))
       !! "interval"
     = Some (CInt 30)
  /\ wait_answers ex_waiting = StillWaiting
  /\ _flush_event
       (self (st (exec dumps_plain ([Call_trigger_flush] ++ [Thread ex_waiting])
                    (exec dumps_plain ex_to_first_clear
                       (start (ex_new (ex_config CNone)))))))
     = false.
Proof.
  assert (H1 : at_pc (exec dumps_plain ex_to_first_clear
                        (start (ex_new (ex_config CNone)))) = AtClear)
    by (vm_compute; reflexivity).
  assert (H2 : forallb is_call [Call_trigger_flush] = true) by reflexivity.
  assert (H3 : config (self (st (exec dumps_plain ex_to_first_clear
                                   (start (ex_new (ex_config CNone))))))
                 !! "interval" = Some (CInt 30)) by (vm_compute; reflexivity).
  assert (H4 : wait_answers ex_waiting = StillWaiting) by reflexivity.
  repeat (split; [assumption|]).
  exact (proj1 (proj2 (signal_before_clear_is_lost dumps_plain _
                         [Call_trigger_flush] ex_waiting ex_waiting _
                         H1 H2 H3 H4))).
Defined.

(** X15 at a concrete input. *)
Lemma run_flushes_first_witness :
  (running (self ex_two_queued) = true \/ queue (self ex_two_queued) <> [])
  /\ at_pc (run dumps_plain [ex_waiting; ex_waiting] ex_two_queued) = AtClear
  /\ flushes (run dumps_plain [ex_waiting; ex_waiting] ex_two_queued) = 1.
Proof.
  assert (H : running (self ex_two_queued) = true
              \/ queue (self ex_two_queued) <> [])
    by (left; vm_compute; reflexivity).
  split; [exact H|].
  destruct (run_flushes_first dumps_plain ex_two_queued ex_waiting ex_waiting H)
    as (Hpc & Hb & _).
  split; [exact Hpc|]. unfold flushes. rewrite Hb. reflexivity.
Defined.

(** X16 at a concrete input. *)
Lemma run_stopped_before_start_witness :
  running (self ex_stopped) = false
  /\ queue (self ex_stopped) = []
  /\ run dumps_plain [ex_waiting; ex_timer] ex_stopped
     = {| st := ex_stopped; at_pc := Exited LoopEnd |}.
Proof.
  assert (H1 : running (self ex_stopped) = false) by reflexivity.
  assert (H2 : queue (self ex_stopped) = []) by reflexivity.
  split; [exact H1|]. split; [exact H2|].
  exact (run_stopped_before_start dumps_plain ex_stopped ex_waiting [ex_timer]
           H1 H2).
Defined.

(** X17 at a concrete input. *)
Lemma run_without_interval_witness :
  (running (self (ex_new ex_config_no_interval)) = true
   \/ queue (self (ex_new ex_config_no_interval)) <> [])
  /\ config (self (ex_new ex_config_no_interval)) !! "interval" = None
  /\ at_pc (run dumps_plain [ex_waiting; ex_waiting; ex_waiting]
              (ex_new ex_config_no_interval))
     = Exited (Uncaught (KeyError "interval")).
Proof.
  assert (H1 : running (self (ex_new ex_config_no_interval)) = true
               \/ queue (self (ex_new ex_config_no_interval)) <> [])
    by (left; reflexivity).
  assert (H2 : config (self (ex_new ex_config_no_interval)) !! "interval"
               = None) by (vm_compute; reflexivity).
  split; [exact H1|]. split; [exact H2|].
  exact (proj1 (run_without_interval dumps_plain _ ex_waiting ex_waiting
                  ex_waiting H1 H2)).
Defined.

(** X18 at a concrete input: the thread of a stopped object has ended; a
    document queued then stays in the queue. *)
Lemma exited_thread_never_flushes_witness :
  is_exited (at_pc (run dumps_plain [ex_waiting] ex_stopped)) = true
  /\ flushes (exec dumps_plain
                [Call_queue_index "x" "t" ex_body None; Thread ex_timer;
                 Thread ex_timer]
                (run dumps_plain [ex_waiting] ex_stopped))
     = 0
  /\ length (queue (self (st (exec dumps_plain
                                [Call_queue_index "x" "t" ex_body None;
                                 Thread ex_timer; Thread ex_timer]
                                (run dumps_plain [ex_waiting] ex_stopped)))))
     = 1.
Proof.
  assert (H : is_exited (at_pc (run dumps_plain [ex_waiting] ex_stopped))
              = true) by (vm_compute; reflexivity).
  split; [exact H|].
  destruct (exited_thread_never_flushes dumps_plain
              [Call_queue_index "x" "t" ex_body None; Thread ex_timer;
               Thread ex_timer] _ H) as (_ & Hb & _ & _ & Hq).
  split.
  - unfold flushes. rewrite Hb. vm_compute. reflexivity.
  - rewrite Hq. vm_compute. reflexivity.
Defined.

(** X19 at a concrete input: flushes that fail, one after the other. *)
Lemma thread_never_stops_by_itself_witness :
  is_exited (at_pc (start (ex_new (ex_config CNone)))) = false
  /\ running (self (st (start (ex_new (ex_config CNone))))) = true
  /\ config (self (st (start (ex_new (ex_config CNone))))) !! "interval"
     = Some (CInt 30)
  /\ forallb keeps_running
       [Thread ex_waiting;
        Thread {| flush_answer := ex_other_bulk_error;
                  wait_answers := TimerExpires |};
        Thread ex_timer; Thread ex_timer; Thread ex_timer;
        Thread {| flush_answer := ex_unwritable;
                  wait_answers := TimerExpires |}]
     = true
  /\ is_exited
       (at_pc (exec dumps_plain
                 [Thread ex_waiting;
                  Thread {| flush_answer := ex_other_bulk_error;
                            wait_answers := TimerExpires |};
                  Thread ex_timer; Thread ex_timer; Thread ex_timer;
                  Thread {| flush_answer := ex_unwritable;
                            wait_answers := TimerExpires |}]
                 (start (ex_new (ex_config CNone)))))
     = false.
Proof.
  assert (H1 : is_exited (at_pc (start (ex_new (ex_config CNone)))) = false)
    by reflexivity.
  assert (H2 : running (self (st (start (ex_new (ex_config CNone))))) = true)
    by reflexivity.
  assert (H3 : config (self (st (start (ex_new (ex_config CNone)))))
                 !! "interval" = Some (CInt 30)) by (vm_compute; reflexivity).
  assert (H4 : forallb keeps_running
                 [Thread ex_waiting;
                  Thread {| flush_answer := ex_other_bulk_error;
                            wait_answers := TimerExpires |};
                  Thread ex_timer; Thread ex_timer; Thread ex_timer;
                  Thread {| flush_answer := ex_unwritable;
                            wait_answers := TimerExpires |}] = true)
    by reflexivity.
  repeat (split; [assumption|]).
  exact (proj1 (thread_never_stops_by_itself dumps_plain _ _ _ H1 H2 H3 H4)).
Defined.

(** X20 at a concrete input: [max_queue_length = 2], the thread waits with
    one record in the queue, and the second arrives. *)
Lemma queue_index_threshold_wakes_thread_witness :
  at_pc (exec dumps_plain
           (ex_to_first_wait ++ [Call_queue_index "x" "t" ex_body None])
           (start (ex_new (ex_config (CInt 2)))))
  = AtWait
  /\ (2 <= Z.of_nat
            (length (queue (self (st (exec dumps_plain
                       (ex_to_first_wait
                        ++ [Call_queue_index "x" "t" ex_body None])
                       (start (ex_new (ex_config (CInt 2)))))))) + 1))%Z
  /\ wait_answers ex_waiting <> WaitRaisesTypeError
  /\ flushes (exec dumps_plain
                [Call_queue_index "y" "t" ex_body None; Thread ex_waiting;
                 Thread ex_waiting; Thread ex_waiting]
                (exec dumps_plain
                   (ex_to_first_wait ++ [Call_queue_index "x" "t" ex_body None])
                   (start (ex_new (ex_config (CInt 2))))))
     = 2.
Proof.
  assert (H1 : at_pc (exec dumps_plain
                        (ex_to_first_wait
                         ++ [Call_queue_index "x" "t" ex_body None])
                        (start (ex_new (ex_config (CInt 2))))) = AtWait)
    by (vm_compute; reflexivity).
  assert (H2 : (2 <= Z.of_nat
                      (length (queue (self (st (exec dumps_plain
                                 (ex_to_first_wait
                                  ++ [Call_queue_index "x" "t" ex_body None])
                                 (start (ex_new (ex_config (CInt 2))))))))
                       + 1))%Z) by (vm_compute; discriminate).
  assert (H3 : wait_answers ex_waiting <> WaitRaisesTypeError) by discriminate.
  repeat (split; [assumption|]).
  destruct (queue_index_threshold_wakes_thread dumps_plain _ "y" "t" ex_body
              None "logs-" 2 ex_waiting ex_waiting ex_waiting H1)
    as (_ & Hb & _);
    [vm_compute; reflexivity|vm_compute; reflexivity|exact H2|exact H3|].
  unfold flushes. rewrite Hb, length_app. vm_compute. reflexivity.
Defined.
